(** * IoT sensor analytics backend: a shallow embedding of [main.py]

    The service has one handler, [get_analytics_data], which calls the
    generator [simulate_sensor_data] and then summarises the generated
    frame (steps B, C and D of the handler).  The embedding follows the
    source line by line; the NumPy and pandas calls it makes are embedded
    next to it with the behaviour the handler relies on.

    Modelling choices, fixed once for the whole development:
    - a finite [float64] value is the rational number it holds, and every
      floating-point operation is the exact operation followed by the
      rounding [rnd64] to the nearest value with a 53-bit significand,
      a tie going to the even significand, with gradual underflow.  The
      exponent has no upper limit: an overflow to infinity is not
      modelled, and the properties of rounded values and of sums are
      stated for readings of bounded magnitude;
    - a sum of an array is NumPy's pairwise summation, in its order;
    - a pandas [Timestamp] is its integer count of nanoseconds since the
      epoch, taken in naive local time, within the signed 64-bit range of
      [datetime64[ns]];
    - the process-wide NumPy generator is an explicit state threaded
      through the calls, behind an interface with two primitive draws;
    - a Python exception is a value of [exception] returned through
      [result]. *)

From Stdlib Require Import ZArith QArith Qround Qminmax Qpower Qabs Lqa Lia.
From Stdlib Require Import String Ascii List.
From stdpp Require Import gmap strings list fin_maps.
Import ListNotations.

Local Open Scope Z_scope.

(* ===================================================================== *)
(** * Exceptions and results *)

(** The exception families the embedded library calls can raise.
    [ValueError] stands for the class and its subclasses (pandas'
    [OutOfBoundsDatetime] is one). *)
Inductive exception : Type :=
| ValueError
| IndexError
| OverflowError
| AssertionError.

Inductive result (A : Type) : Type :=
| Ok (a : A)
| Raise (e : exception).

Arguments Ok {A} a.
Arguments Raise {A} e.

Definition result_bind {A B : Type} (r : result A) (k : A -> result B) : result B :=
  match r with
  | Ok a => k a
  | Raise e => Raise e
  end.

(** Indexing [a[i]]: a negative index counts from the end, and an index
    outside the sequence raises [IndexError]. *)
Definition getitem {A : Type} (a : list A) (i : Z) : result A :=
  let j := if i <? 0 then i + Z.of_nat (length a) else i in
  if j <? 0 then Raise IndexError
  else match nth_error a (Z.to_nat j) with
       | Some x => Ok x
       | None => Raise IndexError
       end.

Fixpoint mapM {A B : Type} (f : A -> result B) (l : list A) : result (list B) :=
  match l with
  | [] => Ok []
  | x :: xs =>
      result_bind (f x) (fun y =>
      result_bind (mapM f xs) (fun ys => Ok (y :: ys)))
  end.

(* ===================================================================== *)
(** * Floating-point values, rounding and summation *)

Module Numeric.

Inductive float64 : Type :=
| Finite (q : Q)
| NaN.

(** [numpy.rint]: the nearest integer, a tie going to the even one. *)
Definition rint (q : Q) : Z :=
  let f := Qfloor q in
  match Qcompare (q - inject_Z f) (1 # 2) with
  | Lt => f
  | Gt => f + 1
  | Eq => if Z.even f then f else f + 1
  end.

(** The binade of a positive rational: the [e] with [2^e <= q < 2^(e+1)]. *)
Definition ilog2 (q : Q) : Z :=
  let e0 := Z.log2 (Qnum q) - Z.log2 (Zpos (Qden q)) in
  if Qle_bool (2 ^ e0) q then e0 else e0 - 1.

(** The least exponent of a normal [binary64] value. *)
Definition emin : Z := -1022.

(** The exponent of a value that is not zero: its binade, or [emin] for a
    subnormal value; and the spacing of the [binary64] values there. *)
Definition expo (q : Q) : Z := Z.max (ilog2 (Qabs q)) emin.

Definition ulp (q : Q) : Q := 2 ^ (expo q - 52).

(** The [binary64] value nearest to [x], a tie going to the even
    significand.  The result is a reduced fraction. *)
Definition rnd64 (x : Q) : Q :=
  let q := Qred x in
  if Qeq_bool q 0 then 0%Q
  else Qred (inject_Z (rint (q / ulp q)) * ulp q).

(** The operations of [float64]. *)
Definition fadd (x y : Q) : Q := rnd64 (x + y).
Definition fmul (x y : Q) : Q := rnd64 (x * y).
Definition fdiv (x y : Q) : Q := rnd64 (x / y).

(** [numpy.round(x, decimals)]: multiply by the power of ten, [rint],
    divide by the power of ten; with a negative [decimals], divide
    first and multiply back. *)
Definition np_round (x : Q) (decimals : Z) : Q :=
  if 0 <=? decimals
  then let p := rnd64 (inject_Z (10 ^ decimals)) in
       fdiv (inject_Z (rint (fmul x p))) p
  else let p := rnd64 (inject_Z (10 ^ (- decimals))) in
       fmul (inject_Z (rint (fdiv x p))) p.

(** Python's [round(x, ndigits)] on a NumPy scalar. *)
Definition round (x : float64) (ndigits : Z) : float64 :=
  match x with
  | Finite q => Finite (np_round q ndigits)
  | NaN => NaN
  end.

(** NumPy's pairwise summation of a contiguous array.  Fewer than eight
    elements are added from left to right.  Up to 128 elements are added
    into eight running sums, element [i] going to the sum [i mod 8]; the
    eight sums are then added in pairs and the elements left over, fewer
    than eight, are added one by one.  A longer array is cut in two at a
    multiple of eight near its middle, and the sums of the two parts are
    added. *)
Definition combine8 (r : list Q) : Q :=
  match r with
  | [r0; r1; r2; r3; r4; r5; r6; r7] =>
      fadd (fadd (fadd r0 r1) (fadd r2 r3)) (fadd (fadd r4 r5) (fadd r6 r7))
  | _ => 0%Q
  end.

Fixpoint unrolled (k : nat) (r l : list Q) : list Q * list Q :=
  match k with
  | O => (r, l)
  | Datatypes.S k' => unrolled k' (zip_with fadd r (take 8 l)) (drop 8 l)
  end.

Definition block_sum (l : list Q) : Q :=
  let '(r, rest) := unrolled (length l / 8 - 1) (take 8 l) (drop 8 l) in
  fold_left fadd rest (combine8 r).

(** [fuel] bounds the depth of the cuts; the length of the array is
    always enough. *)
Fixpoint pairwise_sum (fuel : nat) (l : list Q) : Q :=
  let n := length l in
  if (n <? 8)%nat then fold_left fadd l 0%Q
  else if (n <=? 128)%nat then block_sum l
  else match fuel with
       | O => block_sum l
       | Datatypes.S fuel' =>
           let n2 := (n / 2 - (n / 2) mod 8)%nat in
           fadd (pairwise_sum fuel' (take n2 l)) (pairwise_sum fuel' (drop n2 l))
       end.

(** [ndarray.sum()]. *)
Definition np_sum (l : list Q) : Q := pairwise_sum (length l) l.

End Numeric.
Export Numeric.

(* ===================================================================== *)
(** * Timestamps and [strftime] *)

(* ===================================================================== *)
(** * Timestamps and [strftime] *)

Module Calendar.

Definition ns_per_second : Z := 1000000000.
Definition ns_per_minute : Z := 60 * ns_per_second.
Definition ns_per_hour : Z := 3600 * ns_per_second.
Definition ns_per_day : Z := 86400 * ns_per_second.

(** The range of [datetime64[ns]]: a signed 64-bit count whose least
    value is reserved for [NaT]. *)
Definition Timestamp_min : Z := - (2 ^ 63) + 1.
Definition Timestamp_max : Z := 2 ^ 63 - 1.

Definition in_bounds (t : Z) : Prop := Timestamp_min <= t <= Timestamp_max.

Record datetime : Type := {
  year : Z; month : Z; day : Z;
  hour : Z; minute : Z; second : Z
}.

(** Proleptic Gregorian date of a day number counted from 1970-01-01,
    by 400-year eras starting on 1 March. *)
Definition civil_from_days (days : Z) : Z * Z * Z :=
  let z := days + 719468 in
  let era := z / 146097 in
  let doe := z - era * 146097 in
  let yoe := (doe - doe / 1460 + doe / 36524 - doe / 146096) / 365 in
  let doy := doe - (365 * yoe + yoe / 4 - yoe / 100) in
  let mp := (5 * doy + 2) / 153 in
  let d := doy - (153 * mp + 2) / 5 + 1 in
  let m := if mp <? 10 then mp + 3 else mp - 9 in
  let y := yoe + era * 400 + (if m <=? 2 then 1 else 0) in
  (y, m, d).

(** The day number of a proleptic Gregorian date, the inverse reading of
    [civil_from_days]. *)
Definition days_from_civil (y m d : Z) : Z :=
  let y' := if m <=? 2 then y - 1 else y in
  let era := y' / 400 in
  let yoe := y' - era * 400 in
  let mp := if 2 <? m then m - 3 else m + 9 in
  let doy := (153 * mp + 2) / 5 + d - 1 in
  let doe := yoe * 365 + yoe / 4 - yoe / 100 + doy in
  era * 146097 + doe - 719468.

Definition to_datetime_struct (t : Z) : datetime :=
  let '(y, m, d) := civil_from_days (t / ns_per_day) in
  let sod := (t / ns_per_second) mod 86400 in
  {| year := y; month := m; day := d;
     hour := sod / 3600; minute := (sod / 60) mod 60; second := sod mod 60 |}.

Definition digit (k : Z) : ascii := ascii_of_nat (48 + Z.to_nat k).

Definition pad2 (n : Z) : string :=
  String (digit (n / 10)) (String (digit (n mod 10)) EmptyString).

Definition pad4 (n : Z) : string :=
  String (digit (n / 1000)) (String (digit ((n / 100) mod 10)) (pad2 (n mod 100))).

(** One conversion directive of a format string. *)
Definition directive (c : ascii) (dt : datetime) : string :=
  if Ascii.eqb c "Y" then pad4 (year dt)
  else if Ascii.eqb c "m" then pad2 (month dt)
  else if Ascii.eqb c "d" then pad2 (day dt)
  else if Ascii.eqb c "H" then pad2 (hour dt)
  else if Ascii.eqb c "M" then pad2 (minute dt)
  else if Ascii.eqb c "S" then pad2 (second dt)
  else if Ascii.eqb c "%" then "%"%string
  else String "%" (String c EmptyString).

Fixpoint format_datetime (fmt : string) (dt : datetime) : string :=
  match fmt with
  | EmptyString => EmptyString
  | String c rest =>
      if Ascii.eqb c "%" then
        match rest with
        | EmptyString => String c EmptyString
        | String c' rest' => (directive c' dt ++ format_datetime rest' dt)%string
        end
      else String c (format_datetime rest dt)
  end.

(** [Timestamp.strftime(fmt)]. *)
Definition strftime (fmt : string) (t : Z) : string :=
  format_datetime fmt (to_datetime_struct t).

Definition is_digit (c : ascii) : bool :=
  (48 <=? nat_of_ascii c)%nat && (nat_of_ascii c <=? 57)%nat.

Definition is_upper (c : ascii) : bool :=
  (65 <=? nat_of_ascii c)%nat && (nat_of_ascii c <=? 90)%nat.

(** [has_layout "YYYY-MM-DD HH:MM:SS" s]: [s] has a decimal digit where
    the layout has a capital letter and the layout's own character
    everywhere else, and the same length. *)
Fixpoint has_layout (layout s : string) : bool :=
  match layout, s with
  | EmptyString, EmptyString => true
  | String l ls, String c cs =>
      (if is_upper l then is_digit c else Ascii.eqb l c) && has_layout ls cs
  | _, _ => false
  end.

End Calendar.
Export Calendar.

(* ===================================================================== *)
(** * The NumPy random generator *)

Module NumpyRandom.

(** The two primitive draws of the generator behind [np.random]:
    one integer of the half-open range [[low, high)] and one standard
    normal deviate, a [float64] value, each returning the next generator
    state. *)
Class RandomState (S : Type) : Type := {
  randint1 : Z -> Z -> S -> Z * S;
  standard_normal1 : S -> Q * S
}.

(** What [randint] promises: the draw lies in the requested range. *)
Definition randint_in_range {S : Type} `{RandomState S} : Prop :=
  forall (low high : Z) (s : S), low < high ->
    low <= fst (randint1 low high s) < high.

(** A computation that reads and advances the generator and may raise. *)
Definition Rand (S A : Type) : Type := S -> result (A * S).

Definition ret {S A : Type} (a : A) : Rand S A := fun s => Ok (a, s).

Definition bind {S A B : Type} (m : Rand S A) (k : A -> Rand S B) : Rand S B :=
  fun s =>
    match m s with
    | Ok (a, s') => k a s'
    | Raise e => Raise e
    end.

Definition lift {S A : Type} (r : result A) : Rand S A :=
  fun s =>
    match r with
    | Ok a => Ok (a, s)
    | Raise e => Raise e
    end.

(** [n] successive draws, in order. *)
Fixpoint draws {S A : Type} (draw : S -> A * S) (n : nat) (s : S) : list A * S :=
  match n with
  | O => ([], s)
  | Datatypes.S n' =>
      let (x, s1) := draw s in
      let (xs, s2) := draws draw n' s1 in
      (x :: xs, s2)
  end.

(** An array of [size] draws; a negative [size] is refused
    ("negative dimensions are not allowed"). *)
Definition sized {S A : Type} (draw : S -> A * S) (size : Z) : Rand S (list A) :=
  fun s =>
    if size <? 0 then Raise ValueError
    else Ok (draws draw (Z.to_nat size) s).

Section Draws.
Context {S : Type} `{RandomState S}.

Definition randint (low high size : Z) : Rand S (list Z) :=
  fun s =>
    if (high <=? low) && (0 <? size) then Raise ValueError
    else sized (randint1 low high) size s.

(** [np.random.choice(a, size)]: [size] indices drawn by [randint]
    over the positions of [a], then the elements at these indices. *)
Definition choice {A : Type} (a : list A) (size : Z) : Rand S (list A) :=
  let pop_size := Z.of_nat (length a) in
  bind (randint 0 pop_size size) (fun idx =>
  lift (mapM (getitem a) idx)).

(** One element of [np.random.normal(loc, scale, size)]: a standard
    deviate, multiplied by [scale] and added to [loc], in [float64]. *)
Definition normal_draw (loc scale : Q) (s0 : S) : Q * S :=
  let (z, s1) := standard_normal1 s0 in (fadd loc (fmul scale z), s1).

(** [np.random.normal(loc, scale, size)]. *)
Definition normal (loc scale : Q) (size : Z) : Rand S (list Q) :=
  fun s =>
    if Qle_bool 0 scale
    then sized (normal_draw loc scale) size s
    else Raise ValueError.
End Draws.

End NumpyRandom.
Export NumpyRandom.

Notation "'let*' x ':=' m 'in' k" := (bind m (fun x => k))
  (at level 10, x name, m at level 100, k at level 200).

(* ===================================================================== *)
(** * The pandas operations the handler uses *)

Module Pandas.

(** Frequency aliases with a fixed length, in nanoseconds.  ['T'] is the
    minute. *)
Definition to_offset (freq : string) : option Z :=
  if String.eqb freq "T" then Some ns_per_minute
  else if String.eqb freq "min" then Some ns_per_minute
  else if String.eqb freq "S" then Some ns_per_second
  else if String.eqb freq "H" then Some ns_per_hour
  else if String.eqb freq "D" then Some ns_per_day
  else None.

(** [numpy.arange(b, e, stride)] for a positive [stride]. *)
Definition arange (b e stride : Z) : list Z :=
  map (fun k => b + k * stride) (seqZ 0 ((e - b + stride - 1) / stride)).

(** [pd.date_range(end=end_, periods=periods, freq=freq)]: [periods]
    instants one [freq] apart, the last one being [end_].

    [end_] is a [Timestamp], which an instant outside the range of
    [datetime64[ns]] cannot be ([OutOfBoundsDatetime]).  pandas first forms
    the instant [e] one stride after [end_] and then the first instant
    [e - periods * stride], in 64-bit arithmetic that it checks:
    - a negative [periods] does not convert to an unsigned 64-bit integer
      ([OverflowError] with NumPy 2; NumPy 1 wraps it around and pandas
      then fails with [OutOfBoundsDatetime]);
    - the product [periods * stride] must fit in 64 unsigned bits
      ([OutOfBoundsDatetime]);
    - when the product fits in 63 bits, [e] must too (an assertion of
      pandas fails otherwise);
    - the first instant must lie in the range of [datetime64[ns]]
      ([OutOfBoundsDatetime]). *)
Definition date_range (end_ periods : Z) (freq : string) : result (list Z) :=
  match to_offset freq with
  | None => Raise ValueError
  | Some stride =>
      if negb ((Timestamp_min <=? end_) && (end_ <=? Timestamp_max))
      then Raise ValueError
      else if (periods <? 0) || (2 ^ 64 <=? periods) then Raise OverflowError
      else
        let e := end_ + stride in
        let addend := periods * stride in
        if 2 ^ 64 <=? addend then Raise ValueError
        else if (Timestamp_max <? e) && (addend <=? Timestamp_max)
        then Raise AssertionError
        else
          let b := e - addend in
          if b <? Timestamp_min then Raise ValueError
          else Ok (arange b e stride)
  end.

(** [pd.to_datetime] of an index that already holds timestamps. *)
Definition to_datetime (index : list Z) : list Z := index.

(** [Series.mean()]: the sum of the values divided by their number,
    [NaN] for an empty series. *)
Definition Series_mean (l : list Q) : float64 :=
  match l with
  | [] => NaN
  | _ :: _ => Finite (fdiv (np_sum l) (inject_Z (Z.of_nat (length l))))
  end.

(** [Series.max()] and [Series.min()]: [NaN] for an empty series. *)
Definition Series_max (l : list Q) : float64 :=
  match l with
  | [] => NaN
  | x :: xs => Finite (fold_left Qmax xs x)
  end.

Definition Series_min (l : list Q) : float64 :=
  match l with
  | [] => NaN
  | x :: xs => Finite (fold_left Qmin xs x)
  end.

(** [Series.round(decimals)]. *)
Definition Series_round (l : list Q) (decimals : Z) : list Q :=
  map (fun x => np_round x decimals) l.

(** [Series.dt.strftime(fmt)]. *)
Definition Series_dt_strftime (l : list Z) (fmt : string) : list string :=
  map (strftime fmt) l.

(** [Series.value_counts().to_dict()]: each value that occurs, with
    its number of occurrences. *)
Definition value_counts (l : list string) : gmap string nat :=
  fold_right (fun k m => <[k := Datatypes.S (default 0%nat (m !! k))]> m) ∅ l.

(** The sum of the values of a dictionary of counts. *)
Definition dict_sum (m : gmap string nat) : nat :=
  map_fold (fun _ v acc => (v + acc)%nat) 0%nat m.

End Pandas.
Export Pandas.


(* ===================================================================== *)
(** * [main.py] *)

Module Main.

(** One row of the generated frame. *)
Record SensorReading : Type := {
  timestamp : Z;
  sensor_id : string;
  temperature : Q;
  humidity : Q
}.

(** A frame with the four columns of the generator, held as its rows;
    [df[c]] is the projection [column c df] and [len(df)] its length. *)
Abbreviation DataFrame := (list SensorReading).

Definition column {A : Type} (c : SensorReading -> A) (df : DataFrame) : list A :=
  map c df.

Fixpoint rows (timestamps : list Z) (ids : list string) (temps hums : list Q)
  : DataFrame :=
  match timestamps, ids, temps, hums with
  | t :: ts, i :: is_, x :: xs, h :: hs =>
      {| timestamp := t; sensor_id := i; temperature := x; humidity := h |}
      :: rows ts is_ xs hs
  | _, _, _, _ => []
  end.

(** [pd.DataFrame(data)] for the dictionary of the four columns: the
    arrays must all be of the same length. *)
Definition mk_DataFrame (timestamps : list Z) (ids : list string)
  (temps hums : list Q) : result DataFrame :=
  let n := length timestamps in
  if (length ids =? n)%nat && (length temps =? n)%nat && (length hums =? n)%nat
  then Ok (rows timestamps ids temps hums)
  else Raise ValueError.

(** The literal list handed to [np.random.choice]. *)
Definition sensor_ids : list string :=
  ["sensor_alpha"; "sensor_beta"; "sensor_gamma"]%string.

Definition default_num_records : Z := 100.

Section Handler.
Context {S : Type} `{RandomState S}.

(** [simulate_sensor_data(num_records=100)].  [now] is the value of the
    single [pd.Timestamp.now()] of the call. *)
Definition simulate_sensor_data (num_records : option Z) (now : Z)
  : Rand S DataFrame :=
  let num_records := default default_num_records num_records in
  let* index := lift (date_range now num_records "T") in
  let timestamps := to_datetime index in
  let* ids := choice sensor_ids num_records in
  let* temps := normal (225 # 10) 2 num_records in
  let* hums := normal 55 5 num_records in
  lift (mk_DataFrame timestamps ids temps hums).

End Handler.

(** One entry of [raw_data]: the row after step C, where the timestamp
    is a string. *)
Record RawRecord : Type := {
  raw_timestamp : string;
  raw_sensor_id : string;
  raw_temperature : Q;
  raw_humidity : Q
}.

(** [df.to_dict(orient='records')] on the formatted columns. *)
Fixpoint to_dict_records (timestamps ids : list string) (temps hums : list Q)
  : list RawRecord :=
  match timestamps, ids, temps, hums with
  | t :: ts, i :: is_, x :: xs, h :: hs =>
      {| raw_timestamp := t; raw_sensor_id := i;
         raw_temperature := x; raw_humidity := h |}
      :: to_dict_records ts is_ xs hs
  | _, _, _, _ => []
  end.

(** What step C makes of one row. *)
Definition render (row : SensorReading) : RawRecord :=
  {| raw_timestamp := strftime "%Y-%m-%d %H:%M:%S" (timestamp row);
     raw_sensor_id := sensor_id row;
     raw_temperature := np_round (temperature row) 2;
     raw_humidity := np_round (humidity row) 2 |}.

Record AnalyticsResult : Type := {
  total_records : nat;
  average_temp : float64;
  max_temp : float64;
  min_temp : float64;
  average_humidity : float64;
  records_per_sensor : gmap string nat;
  raw_data : list RawRecord
}.

(** Steps B, C and D of [get_analytics_data] (lines 69 to 86), as a
    function of the frame [df] they work on.  Step B reads the columns
    before step C overwrites them. *)
Definition summarize (df : DataFrame) : AnalyticsResult :=
  (* Step B *)
  let total := length df in
  let avg_t := round (Series_mean (column temperature df)) 2 in
  let max_t := round (Series_max (column temperature df)) 2 in
  let min_t := round (Series_min (column temperature df)) 2 in
  let avg_h := round (Series_mean (column humidity df)) 2 in
  let per_sensor := value_counts (column sensor_id df) in
  (* Step C *)
  let col_timestamp := Series_dt_strftime (column timestamp df) "%Y-%m-%d %H:%M:%S" in
  let col_temperature := Series_round (column temperature df) 2 in
  let col_humidity := Series_round (column humidity df) 2 in
  let raw_data_for_json :=
    to_dict_records col_timestamp (column sensor_id df) col_temperature col_humidity in
  (* Step D *)
  {| total_records := total;
     average_temp := avg_t;
     max_temp := max_t;
     min_temp := min_t;
     average_humidity := avg_h;
     records_per_sensor := per_sensor;
     raw_data := raw_data_for_json |}.

(** The handler of [GET /api/v1/analytics]. *)
Definition get_analytics_data {S : Type} `{RandomState S} (now : Z)
  : Rand S AnalyticsResult :=
  (* Step A *)
  let* df := simulate_sensor_data (Some 150) now in
  ret (summarize df).

(** The handler of [GET /]. *)
Definition read_root : list (string * string) :=
  [("status", "OK"); ("message", "Welcome to the IoT Analytics Backend!")]%string.

End Main.
Export Main.

(* ===================================================================== *)
(** * A deterministic generator and frames for the examples *)

Module Seeded.

Definition lcg_next (s : Z) : Z := (1103515245 * s + 12345) mod 2 ^ 31.

(** A linear congruential generator; its normal deviates are multiples of
    a quarter between -3 and 3. *)
#[export] Instance lcg : RandomState Z := {|
  randint1 := fun low high s => (low + (s / 65536) mod (high - low), lcg_next s);
  standard_normal1 := fun s => (Qmake ((s / 65536) mod 25 - 12) 4, lcg_next s)
|}.

(** 2026-11-03 17:25:59 and a few nanoseconds. *)
Definition now0 : Z := 1793726759 * ns_per_second + 123456789.

(** Three readings whose temperatures differ in the third decimal; a
    decimal literal of the source language is the [float64] value
    nearest to it. *)
Definition frame_fine : DataFrame :=
  [ {| timestamp := now0 - 2 * ns_per_minute; sensor_id := "sensor_alpha";
       temperature := rnd64 (22006 # 1000); humidity := 50 |};
    {| timestamp := now0 - ns_per_minute; sensor_id := "sensor_alpha";
       temperature := rnd64 (22006 # 1000); humidity := 55 |};
    {| timestamp := now0; sensor_id := "sensor_beta";
       temperature := 22; humidity := 60 |} ].

(** Three readings whose temperatures and humidities both round up in
    the rows and down in the mean. *)
Definition frame_precise : DataFrame :=
  [ {| timestamp := now0 - 2 * ns_per_minute; sensor_id := "sensor_alpha";
       temperature := rnd64 (22006 # 1000); humidity := rnd64 (55006 # 1000) |};
    {| timestamp := now0 - ns_per_minute; sensor_id := "sensor_gamma";
       temperature := rnd64 (22006 # 1000); humidity := rnd64 (55006 # 1000) |};
    {| timestamp := now0; sensor_id := "sensor_beta";
       temperature := 22; humidity := 55 |} ].

(** Three equal readings of 21.335 and of 50.205. *)
Definition frame_ties : DataFrame :=
  [ {| timestamp := now0 - 2 * ns_per_minute; sensor_id := "sensor_alpha";
       temperature := rnd64 (21335 # 1000); humidity := rnd64 (50205 # 1000) |};
    {| timestamp := now0 - ns_per_minute; sensor_id := "sensor_beta";
       temperature := rnd64 (21335 # 1000); humidity := rnd64 (50205 # 1000) |};
    {| timestamp := now0; sensor_id := "sensor_beta";
       temperature := rnd64 (21335 # 1000); humidity := rnd64 (50205 # 1000) |} ].

(** Three readings with values half-way between two hundredths, or next
    to it. *)
Definition frame_halves : DataFrame :=
  [ {| timestamp := now0 - 2 * ns_per_minute; sensor_id := "sensor_alpha";
       temperature := rnd64 (20075 # 1000); humidity := rnd64 (50205 # 1000) |};
    {| timestamp := now0 - ns_per_minute; sensor_id := "sensor_beta";
       temperature := rnd64 (21335 # 1000); humidity := 55 |};
    {| timestamp := now0; sensor_id := "sensor_gamma";
       temperature := rnd64 (22006 # 1000); humidity := 60125 # 1000 |} ].

(** Six equal readings of 20.025. *)
Definition frame_six : DataFrame :=
  map (fun k => {| timestamp := now0 - (5 - k) * ns_per_minute;
                   sensor_id := "sensor_alpha";
                   temperature := rnd64 (20025 # 1000); humidity := 50 |})
      (seqZ 0 6).

End Seeded.
Import Seeded.

(* ===================================================================== *)
(** * Vocabulary of the properties *)

(** The exact sum of a list of rationals. *)
Definition Qsum (l : list Q) : Q := fold_right Qplus 0%Q l.

(** The value of [q] rounded on the grid of its own exponent. *)
Definition on_grid (q : Q) : Q := (inject_Z (rint (q / ulp q)) * ulp q)%Q.

(** [float_sum s l k]: [s] is obtained from the elements of [l], each
    used once and in some order, by [k] floating-point additions. *)
Inductive float_sum : Q -> list Q -> nat -> Prop :=
| float_sum_zero : float_sum 0%Q [] 0
| float_sum_one (x : Q) : float_sum x [x] 0
| float_sum_add (s1 s2 : Q) (l1 l2 : list Q) (k1 k2 : nat) :
    float_sum s1 l1 k1 -> float_sum s2 l2 k2 ->
    float_sum (fadd s1 s2) (l1 ++ l2) (Datatypes.S (k1 + k2))
| float_sum_perm (s : Q) (l l' : list Q) (k : nat) :
    float_sum s l k -> l ≡ₚ l' -> float_sum s l' k.

(** A running sum over a list that is not empty, one addition short of
    its length. *)
Definition running (s : Q) (L : list Q) : Prop :=
  L <> [] /\ float_sum s L (length L - 1).

(** The relative rounding error of [binary64] and its least absolute
    one. *)
Definition u64 : Q := 2 ^ (-53).
Definition eta64 : Q := 2 ^ (-1075).

(** The bounds under which the accuracy of the aggregates is stated: a
    million readings at most, of magnitude a million at most. *)
Definition reading_bound : Q := 1000000.
Definition length_bound : Z := 1000000.

Definition bounded_readings (l : list Q) : Prop :=
  Z.of_nat (length l) <= length_bound /\
  Forall (fun x => Qabs x <= reading_bound)%Q l.

(** The error of one addition between sums of bounded readings, and the
    distance it leaves between the [float64] mean and the exact one. *)
Definition add_error : Q := u64 * 2000000000000 + eta64.
Definition mean_error : Q := 1 # 2000.

(** The [n] instants one minute apart that end at [now]. *)
Definition minutes_before (now n : Z) : list Z :=
  map (fun k => now - (n - 1 - k) * ns_per_minute) (seqZ 0 n).

(** The clock leaves room for [n] instants one minute apart that end at
    [now]: [now] is an instant of the range, the instant one minute later
    fits in 64 bits and the oldest instant is in the range. *)
Definition clock_window (now n : Z) : Prop :=
  in_bounds now /\
  now + ns_per_minute <= Timestamp_max /\
  Timestamp_min <= now - (n - 1) * ns_per_minute.

(** The distance [np.round(x, 2)] leaves between a bounded value and its
    rounding: half a hundredth and the errors of the product and of the
    quotient. *)
Definition round_error : Q := (1 # 200) + (1 # 1000000000).

(** The civil date and time of day a rendered timestamp stands for, as
    a count of seconds since the epoch. *)
Definition seconds_of_datetime (dt : datetime) : Z :=
  ((days_from_civil (year dt) (month dt) (day dt) * 24 + hour dt) * 60
   + minute dt) * 60 + second dt.

(** [rendered t str]: [str] spells, as year-month-day hour:minute:second
    in digits, a civil date and time of day that is the second of the
    instant [t]. *)
Definition rendered (t : Z) (str : string) : Prop :=
  exists dt : datetime,
    str = (pad4 (year dt) ++ "-" ++ pad2 (month dt) ++ "-" ++ pad2 (day dt) ++ " " ++
           pad2 (hour dt) ++ ":" ++ pad2 (minute dt) ++ ":" ++ pad2 (second dt))%string /\
    1600 <= year dt <= 2400 /\ 1 <= month dt <= 12 /\ 1 <= day dt <= 31 /\
    0 <= hour dt <= 23 /\ 0 <= minute dt <= 59 /\ 0 <= second dt <= 59 /\
    seconds_of_datetime dt = t / ns_per_second.

(** [rounded_to_hundredths x r]: [r] is the [float64] quotient by 100 of
    a whole number [k] of hundredths, where [k] is an integer nearest to
    the [float64] product of [x] by 100, the even one of the two when the
    product is half-way between them. *)
Definition rounded_to_hundredths (x r : Q) : Prop :=
  exists k : Z,
    (Qabs (inject_Z k - fmul x 100) <= 1 # 2)%Q /\
    ((Qabs (inject_Z k - fmul x 100) == 1 # 2)%Q -> Z.even k = true) /\
    r = fdiv (inject_Z k) 100.

(* ===================================================================== *)
(** * The embedding on concrete inputs *)

Example strftime_epoch :
  strftime "%Y-%m-%d %H:%M:%S" 0 = "1970-01-01 00:00:00"%string.
Proof. reflexivity. Qed.

Example strftime_before_epoch :
  strftime "%Y-%m-%d %H:%M:%S" (-1) = "1969-12-31 23:59:59"%string.
Proof. reflexivity. Qed.

Example strftime_leap_day :
  strftime "%Y-%m-%d %H:%M:%S" (951868799 * ns_per_second)
    = "2000-02-29 23:59:59"%string.
Proof. reflexivity. Qed.

Example strftime_first_instant :
  strftime "%Y-%m-%d %H:%M:%S" Timestamp_min = "1677-09-21 00:12:43"%string.
Proof. reflexivity. Qed.

Example strftime_last_instant :
  strftime "%Y-%m-%d %H:%M:%S" Timestamp_max = "2262-04-11 23:47:16"%string.
Proof. reflexivity. Qed.

Example strftime_now0 :
  strftime "%Y-%m-%d %H:%M:%S" now0 = "2026-11-03 17:25:59"%string.
Proof. reflexivity. Qed.

Example strftime_other_directive :
  strftime "%H h %%" now0 = "17 h %"%string.
Proof. reflexivity. Qed.

(** The [float64] values nearest to a third and to 20.075, and values
    that are [float64] values already. *)
Example rnd64_values :
  rnd64 (1 # 3) = (6004799503160661 # 18014398509481984)%Q /\
  rnd64 (20075 # 1000) = (5650610157466419 # 281474976710656)%Q /\
  rnd64 (225 # 10) = (45 # 2)%Q /\ rnd64 (- 3 # 4) = (- 3 # 4)%Q /\ rnd64 0 = 0%Q.
Proof. repeat split; vm_compute; reflexivity. Qed.

(** A tie goes to the even neighbour, on both sides of zero. *)
Example np_round_ties :
  np_round (1 # 8) 2 = rnd64 (12 # 100) /\ np_round (3 # 8) 2 = rnd64 (38 # 100) /\
  np_round (- 1 # 8) 2 = rnd64 (- 12 # 100) /\ np_round (60125 # 1000) 2 = rnd64 (6012 # 100).
Proof. repeat split; vm_compute; reflexivity. Qed.

(** The [float64] value nearest to 20.075 lies below 20.075, and yet its
    product by 100 is rounded to 2007.5, which [rint] takes to 2008: the
    value is rounded to 20.08, not to 20.07. *)
Example np_round_float_product :
  (rnd64 (20075 # 1000) < 20075 # 1000)%Q /\
  fmul (rnd64 (20075 # 1000)) 100 = (4015 # 2)%Q /\
  np_round (rnd64 (20075 # 1000)) 2 = rnd64 (2008 # 100) /\
  np_round (rnd64 (20075 # 1000)) 2 = (1413004383087493 # 70368744177664)%Q.
Proof. repeat split; vm_compute; reflexivity. Qed.

Example np_round_negative_decimals : np_round 1250 (-2) = 1200%Q.
Proof. vm_compute. reflexivity. Qed.

(** Three equal readings whose sum is rounded: their mean is the next
    [float64] value below them. *)
Example Series_mean_below_readings :
  Series_mean [rnd64 (21335 # 1000); rnd64 (21335 # 1000); rnd64 (21335 # 1000)]
    = Finite (Qred (rnd64 (21335 # 1000) - 2 ^ (-48))).
Proof. vm_compute. reflexivity. Qed.

Example getitem_from_the_end : getitem sensor_ids (-1) = Ok "sensor_gamma"%string.
Proof. reflexivity. Qed.

Example getitem_outside : getitem sensor_ids 3 = Raise IndexError.
Proof. reflexivity. Qed.

Example date_range_three :
  date_range now0 3 "T"
    = Ok [now0 - 2 * ns_per_minute; now0 - ns_per_minute; now0].
Proof. reflexivity. Qed.

Example date_range_unknown_alias : date_range now0 3 "fortnight" = Raise ValueError.
Proof. reflexivity. Qed.

(** The failures of [date_range]: a negative count, an oldest instant
    before the range, a clock in the last minute of the range. *)
Example date_range_failures :
  date_range now0 (-1) "T" = Raise OverflowError /\
  date_range now0 200000000 "T" = Raise ValueError /\
  date_range (Timestamp_min + ns_per_minute) 3 "T" = Raise ValueError /\
  date_range Timestamp_max 150 "T" = Raise AssertionError /\
  date_range (Timestamp_max + 1) 150 "T" = Raise ValueError.
Proof. repeat split; reflexivity. Qed.

Example simulate_three :
  simulate_sensor_data (Some 3) now0 42 =
    Ok ([ {| timestamp := now0 - 2 * ns_per_minute; sensor_id := "sensor_alpha";
             temperature := 26; humidity := 125 # 2 |};
          {| timestamp := now0 - ns_per_minute; sensor_id := "sensor_beta";
             temperature := 22; humidity := 85 # 2 |};
          {| timestamp := now0; sensor_id := "sensor_gamma";
             temperature := 39 # 2; humidity := 40 |} ],
        1314989459).
Proof. vm_compute. reflexivity. Qed.

Example simulate_negative :
  simulate_sensor_data (Some (-1)) now0 42 = Raise OverflowError.
Proof. reflexivity. Qed.

Example summarize_frame_fine_raw_data :
  raw_data (summarize frame_fine) =
    [ {| raw_timestamp := "2026-11-03 17:23:59"; raw_sensor_id := "sensor_alpha";
         raw_temperature := rnd64 (2201 # 100); raw_humidity := 50 |};
      {| raw_timestamp := "2026-11-03 17:24:59"; raw_sensor_id := "sensor_alpha";
         raw_temperature := rnd64 (2201 # 100); raw_humidity := 55 |};
      {| raw_timestamp := "2026-11-03 17:25:59"; raw_sensor_id := "sensor_beta";
         raw_temperature := 22; raw_humidity := 60 |} ].
Proof. vm_compute. reflexivity. Qed.

(* ===================================================================== *)
(** * Rounding *)

Section Rounding.
Local Open Scope Q_scope.

Lemma pow2_pos (k : Z) : 0 < 2 ^ k.
Proof. apply Qpower_0_lt. reflexivity. Qed.

Lemma pow2_add (a b : Z) : 2 ^ (a + b) == 2 ^ a * 2 ^ b.
Proof. apply Qpower_plus. discriminate. Qed.

Lemma pow2_succ (a : Z) : 2 ^ (a + 1) == 2 * 2 ^ a.
Proof. rewrite pow2_add. change (2 ^ 1) with 2. ring. Qed.

Lemma pow2_le (a b : Z) : (a <= b)%Z -> 2 ^ a <= 2 ^ b.
Proof. intros H. apply Qpower_le_compat_l; [exact H | discriminate]. Qed.

Lemma pow2_inject (a : Z) : (0 <= a)%Z -> inject_Z (2 ^ a) == 2 ^ a.
Proof. intros H. rewrite Zpower_Qpower by exact H. reflexivity. Qed.

(** [ilog2] finds the binade of a positive rational. *)
Lemma ilog2_spec (q : Q) : 0 < q -> 2 ^ ilog2 q <= q /\ q < 2 ^ (ilog2 q + 1).
Proof.
  intros Hq. destruct q as [n d].
  assert (Hn : (0 < n)%Z) by (unfold Qlt in Hq; simpl in Hq; lia).
  unfold ilog2. cbn [Qnum Qden].
  set (ln := Z.log2 n). set (ld := Z.log2 (Z.pos d)).
  pose proof (Z.log2_spec n Hn) as [Hn1 Hn2].
  pose proof (Z.log2_spec (Z.pos d) ltac:(lia)) as [Hd1 Hd2].
  pose proof (Z.log2_nonneg n) as Hln. pose proof (Z.log2_nonneg (Z.pos d)) as Hld.
  fold ln in Hn1, Hn2, Hln. fold ld in Hd1, Hd2, Hld.
  rewrite Zle_Qle in Hn1, Hd1. rewrite Zlt_Qlt in Hn2, Hd2.
  rewrite <- !Z.add_1_r in Hn2, Hd2.
  rewrite pow2_inject in Hn1, Hd1, Hn2, Hd2 by lia.
  rewrite pow2_succ in Hn2, Hd2.
  assert (Eq : (n # d) * inject_Z (Z.pos d) == inject_Z n).
  { rewrite (Qmake_Qdiv n d). field. discriminate. }
  set (q := n # d) in *. set (N := inject_Z n) in *. set (D := inject_Z (Z.pos d)) in *.
  assert (EA : 2 ^ (ln - ld) * 2 ^ ld == 2 ^ ln).
  { rewrite <- pow2_add. replace (ln - ld + ld)%Z with ln by lia. reflexivity. }
  pose proof (pow2_pos (ln - ld)) as HA. pose proof (pow2_pos ld) as HPD.
  pose proof (pow2_pos ln) as HPN.
  destruct (Qle_bool (2 ^ (ln - ld)) q) eqn:T.
  - apply Qle_bool_iff in T. split; [exact T |].
    rewrite pow2_succ.
    set (A := 2 ^ (ln - ld)) in *. set (PD := 2 ^ ld) in *. set (PN := 2 ^ ln) in *.
    apply Qnot_le_lt. intros Hc. nra.
  - assert (T' : q < 2 ^ (ln - ld)).
    { apply Qnot_le_lt. intros Hc. apply Qle_bool_iff in Hc. congruence. }
    replace (ln - ld - 1 + 1)%Z with (ln - ld)%Z by lia. split; [| exact T'].
    assert (E1 : 2 ^ (ln - ld) == 2 * 2 ^ (ln - ld - 1)).
    { rewrite <- pow2_succ. replace (ln - ld - 1 + 1)%Z with (ln - ld)%Z by lia. reflexivity. }
    pose proof (pow2_pos (ln - ld - 1)) as HB.
    set (A := 2 ^ (ln - ld)) in *. set (B := 2 ^ (ln - ld - 1)) in *.
    set (PD := 2 ^ ld) in *. set (PN := 2 ^ ln) in *.
    apply Qnot_lt_le. intros Hc. nra.
Qed.

(** [rint q] is within a half of [q]. *)
Lemma rint_bounds (q : Q) :
  inject_Z (rint q) - (1 # 2) <= q /\ q <= inject_Z (rint q) + (1 # 2).
Proof.
  unfold rint.
  pose proof (Qfloor_le q) as Hlo.
  pose proof (Qlt_floor q) as Hhi.
  rewrite inject_Z_plus in Hhi. change (inject_Z 1) with 1 in Hhi.
  destruct (Qcompare_spec (q - inject_Z (Qfloor q)) (1 # 2)) as [He | Hl | Hg];
    [destruct (Z.even (Qfloor q)) | |];
    rewrite ?inject_Z_plus; change (inject_Z 1) with 1; split; lra.
Qed.

(** Half-way between two integers, [rint] gives the even one. *)
Lemma rint_tie_even (q : Q) :
  q - inject_Z (rint q) == 1 # 2 \/ inject_Z (rint q) - q == 1 # 2 ->
  Z.even (rint q) = true.
Proof.
  unfold rint.
  pose proof (Qfloor_le q) as Hlo.
  pose proof (Qlt_floor q) as Hhi.
  rewrite inject_Z_plus in Hhi. change (inject_Z 1) with 1 in Hhi.
  destruct (Qcompare_spec (q - inject_Z (Qfloor q)) (1 # 2)) as [He | Hl | Hg].
  - destruct (Z.even (Qfloor q)) eqn:Ev; intros _; [exact Ev |].
    rewrite Z.even_add, Ev. reflexivity.
  - intros [H | H]; exfalso; lra.
  - rewrite inject_Z_plus. change (inject_Z 1) with 1. intros [H | H]; exfalso; lra.
Qed.

(** Rounding to the nearest integer, ties to even, is monotone. *)
Lemma rint_mono (x y : Q) : x <= y -> (rint x <= rint y)%Z.
Proof.
  intros Hxy.
  pose proof (Qfloor_resp_le _ _ Hxy) as Hf.
  pose proof (Qfloor_le x) as Hxlo. pose proof (Qlt_floor x) as Hxhi.
  pose proof (Qfloor_le y) as Hylo. pose proof (Qlt_floor y) as Hyhi.
  rewrite inject_Z_plus in Hxhi, Hyhi. change (inject_Z 1) with 1 in Hxhi, Hyhi.
  assert (Hx : (Qfloor x <= rint x <= Qfloor x + 1)%Z).
  { unfold rint. destruct (Qcompare _ _); [destruct (Z.even _) | |]; lia. }
  assert (Hy : (Qfloor y <= rint y <= Qfloor y + 1)%Z).
  { unfold rint. destruct (Qcompare _ _); [destruct (Z.even _) | |]; lia. }
  destruct (Z.eq_dec (Qfloor x) (Qfloor y)) as [E | NE]; [| lia].
  unfold rint. rewrite <- E.
  destruct (Qcompare_spec (x - inject_Z (Qfloor x)) (1 # 2)) as [He | Hl | Hg];
    destruct (Qcompare_spec (y - inject_Z (Qfloor x)) (1 # 2)) as [He' | Hl' | Hg'];
    try destruct (Z.even (Qfloor x)); try lia; exfalso; lra.
Qed.

Lemma rint_inject_Z (z : Z) : rint (inject_Z z) = z.
Proof.
  unfold rint. rewrite Qfloor_Z.
  generalize (inject_Z z). intros a.
  destruct (Qcompare_spec (a - a) (1 # 2)); [exfalso; lra | reflexivity | exfalso; lra].
Qed.

Lemma rint_Qeq (x y : Q) : x == y -> rint x = rint y.
Proof.
  intros E. unfold rint. rewrite (Qfloor_comp x y E).
  assert (Ec : (x - inject_Z (Qfloor y) ?= 1 # 2) = (y - inject_Z (Qfloor y) ?= 1 # 2)).
  { apply Qcompare_comp; [rewrite E; reflexivity | reflexivity]. }
  rewrite Ec. reflexivity.
Qed.

Lemma Qabs_nonzero (q : Q) : ~ q == 0 -> 0 < Qabs q.
Proof.
  intros Hq. pose proof (Qabs_nonneg q) as Hn.
  apply Qle_lt_or_eq in Hn as [Hn | Hn]; [exact Hn | exfalso; apply Hq].
  revert Hn. apply Qabs_case; intros; lra.
Qed.

(** The exponent of a value that is not zero bounds it from above, and
    from below when the value is normal. *)
Lemma expo_upper (q : Q) : ~ q == 0 -> Qabs q < 2 ^ (expo q + 1).
Proof.
  intros Hq. pose proof (Qabs_nonzero q Hq) as Ha.
  destruct (ilog2_spec (Qabs q) Ha) as [_ H2].
  eapply Qlt_le_trans; [exact H2 |]. apply pow2_le. unfold expo. lia.
Qed.

Lemma expo_lower (q : Q) : ~ q == 0 -> (emin < expo q)%Z -> 2 ^ expo q <= Qabs q.
Proof.
  intros Hq He. pose proof (Qabs_nonzero q Hq) as Ha.
  destruct (ilog2_spec (Qabs q) Ha) as [H1 _].
  replace (expo q) with (ilog2 (Qabs q)) by (unfold expo in *; lia). exact H1.
Qed.

Lemma expo_mono (x y : Q) :
  ~ x == 0 -> Qabs x <= Qabs y -> (expo x <= expo y)%Z.
Proof.
  intros Hx Hxy. pose proof (Qabs_nonzero x Hx) as Ha.
  assert (Hb : 0 < Qabs y) by lra.
  destruct (ilog2_spec (Qabs x) Ha) as [H1 _].
  destruct (ilog2_spec (Qabs y) Hb) as [_ H2].
  assert (H : 2 ^ ilog2 (Qabs x) < 2 ^ (ilog2 (Qabs y) + 1)) by lra.
  apply Qpower_lt_compat_l_inv in H; [| reflexivity].
  unfold expo. lia.
Qed.

Lemma ulp_pos (q : Q) : 0 < ulp q.
Proof. apply pow2_pos. Qed.

Lemma ulp_scale (q : Q) : 2 ^ (expo q + 1) == inject_Z (2 ^ 53) * ulp q.
Proof.
  unfold ulp. rewrite pow2_inject by lia. rewrite <- pow2_add.
  replace (53 + (expo q - 52))%Z with (expo q + 1)%Z by lia. reflexivity.
Qed.

Lemma ulp_scale' (q : Q) : 2 ^ expo q == inject_Z (2 ^ 52) * ulp q.
Proof.
  unfold ulp. rewrite pow2_inject by lia. rewrite <- pow2_add.
  replace (52 + (expo q - 52))%Z with (expo q)%Z by lia. reflexivity.
Qed.

Lemma on_grid_pos (q : Q) :
  0 < q ->
  0 <= on_grid q /\ on_grid q <= 2 ^ (expo q + 1) /\
  ((emin < expo q)%Z -> 2 ^ expo q <= on_grid q).
Proof.
  intros Hq. unfold on_grid.
  assert (Hne : ~ q == 0) by lra.
  pose proof (expo_upper q Hne) as Hu. rewrite Qabs_pos in Hu by lra.
  pose proof (ulp_pos q) as Hp.
  assert (Et : q / ulp q * ulp q == q) by (field; lra).
  set (t := q / ulp q) in *.
  rewrite ulp_scale in Hu.
  assert (H0 : (0 <= rint t)%Z).
  { rewrite <- (rint_inject_Z 0). apply rint_mono. change (inject_Z 0) with 0.
    apply Qnot_lt_le. intros Hc. nra. }
  assert (H1 : (rint t <= 2 ^ 53)%Z).
  { rewrite <- (rint_inject_Z (2 ^ 53)). apply rint_mono.
    apply Qnot_lt_le. intros Hc. nra. }
  rewrite Zle_Qle in H0, H1. change (inject_Z 0) with 0 in H0.
  split; [nra |]. split.
  - rewrite ulp_scale. nra.
  - intros He. pose proof (expo_lower q Hne He) as Hl. rewrite Qabs_pos in Hl by lra.
    rewrite ulp_scale' in Hl |- *.
    assert (H2 : (2 ^ 52 <= rint t)%Z).
    { rewrite <- (rint_inject_Z (2 ^ 52)). apply rint_mono.
      apply Qnot_lt_le. intros Hc. nra. }
    rewrite Zle_Qle in H2. nra.
Qed.

Lemma on_grid_neg (q : Q) :
  q < 0 ->
  on_grid q <= 0 /\ - 2 ^ (expo q + 1) <= on_grid q /\
  ((emin < expo q)%Z -> on_grid q <= - 2 ^ expo q).
Proof.
  intros Hq. unfold on_grid.
  assert (Hne : ~ q == 0) by lra.
  pose proof (expo_upper q Hne) as Hu. rewrite Qabs_neg in Hu by lra.
  pose proof (ulp_pos q) as Hp.
  assert (Et : q / ulp q * ulp q == q) by (field; lra).
  set (t := q / ulp q) in *.
  rewrite ulp_scale in Hu.
  assert (H0 : (rint t <= 0)%Z).
  { rewrite <- (rint_inject_Z 0). apply rint_mono. change (inject_Z 0) with 0.
    apply Qnot_lt_le. intros Hc. nra. }
  assert (H1 : (- 2 ^ 53 <= rint t)%Z).
  { rewrite <- (rint_inject_Z (- 2 ^ 53)). apply rint_mono.
    rewrite inject_Z_opp. apply Qnot_lt_le. intros Hc. nra. }
  rewrite Zle_Qle in H0, H1. change (inject_Z 0) with 0 in H0.
  rewrite inject_Z_opp in H1.
  split; [nra |]. split.
  - rewrite ulp_scale. nra.
  - intros He. pose proof (expo_lower q Hne He) as Hl. rewrite Qabs_neg in Hl by lra.
    rewrite ulp_scale' in Hl |- *.
    assert (H2 : (rint t <= - 2 ^ 52)%Z).
    { rewrite <- (rint_inject_Z (- 2 ^ 52)). apply rint_mono.
      rewrite inject_Z_opp. apply Qnot_lt_le. intros Hc. nra. }
    rewrite Zle_Qle in H2. rewrite inject_Z_opp in H2. nra.
Qed.

Lemma on_grid_mono (x y : Q) : ~ x == 0 -> ~ y == 0 -> x <= y -> on_grid x <= on_grid y.
Proof.
  intros Hx Hy Hxy.
  destruct (Qlt_le_dec x 0) as [Nx | Px]; destruct (Qlt_le_dec y 0) as [Ny | Py].
  - assert (Habs : Qabs y <= Qabs x) by (rewrite !Qabs_neg by lra; lra).
    pose proof (expo_mono y x Hy Habs) as He.
    destruct (Z.eq_dec (expo y) (expo x)) as [E | NE].
    + unfold on_grid, ulp. rewrite E.
      pose proof (pow2_pos (expo x - 52)) as Hp. set (u := 2 ^ (expo x - 52)) in *.
      assert (H : (rint (x / u) <= rint (y / u))%Z).
      { apply rint_mono. apply Qmult_le_compat_r; [exact Hxy |].
        apply Qlt_le_weak, Qinv_lt_0_compat, Hp. }
      rewrite Zle_Qle in H. nra.
    + destruct (on_grid_neg x Nx) as (_ & _ & Hlx).
      destruct (on_grid_neg y Ny) as (_ & Huy & _).
      specialize (Hlx ltac:(unfold expo in *; lia)).
      pose proof (pow2_le (expo y + 1) (expo x) ltac:(lia)). lra.
  - destruct (on_grid_neg x Nx) as (H1 & _).
    assert (Py' : 0 < y).
    { apply Qle_lt_or_eq in Py as [P | P];
        [exact P | exfalso; apply Hy; rewrite <- P; reflexivity]. }
    destruct (on_grid_pos y Py') as (H2 & _). lra.
  - exfalso. lra.
  - assert (Px' : 0 < x).
    { apply Qle_lt_or_eq in Px as [P | P];
        [exact P | exfalso; apply Hx; rewrite <- P; reflexivity]. }
    assert (Py' : 0 < y) by lra.
    assert (Habs : Qabs x <= Qabs y) by (rewrite !Qabs_pos by lra; lra).
    pose proof (expo_mono x y Hx Habs) as He.
    destruct (Z.eq_dec (expo x) (expo y)) as [E | NE].
    + unfold on_grid, ulp. rewrite E.
      pose proof (pow2_pos (expo y - 52)) as Hp. set (u := 2 ^ (expo y - 52)) in *.
      assert (H : (rint (x / u) <= rint (y / u))%Z).
      { apply rint_mono. apply Qmult_le_compat_r; [exact Hxy |].
        apply Qlt_le_weak, Qinv_lt_0_compat, Hp. }
      rewrite Zle_Qle in H. nra.
    + destruct (on_grid_pos x Px') as (_ & Hux & _).
      destruct (on_grid_pos y Py') as (_ & _ & Hly).
      specialize (Hly ltac:(unfold expo in *; lia)).
      pose proof (pow2_le (expo x + 1) (expo y) ltac:(lia)). lra.
Qed.

(** What [rnd64] computes, up to the choice of a fraction. *)
Lemma rnd64_eq (x : Q) :
  rnd64 x == if Qeq_bool (Qred x) 0 then 0 else on_grid (Qred x).
Proof.
  unfold rnd64, on_grid. destruct (Qeq_bool (Qred x) 0); [reflexivity |].
  rewrite Qred_correct. reflexivity.
Qed.

(** [rnd64] gives one result for equal rationals, whatever their
    fractions. *)
Lemma rnd64_Qeq (x y : Q) : x == y -> rnd64 x = rnd64 y.
Proof. intros E. unfold rnd64. rewrite (Qred_complete x y E). reflexivity. Qed.

(** Rounding to the nearest [binary64] value is monotone. *)
Lemma rnd64_mono (x y : Q) : x <= y -> rnd64 x <= rnd64 y.
Proof.
  intros Hxy. rewrite !rnd64_eq.
  pose proof (Qred_correct x) as Ex. pose proof (Qred_correct y) as Ey.
  set (p := Qred x) in *. set (q := Qred y) in *.
  assert (Hpq : p <= q) by (rewrite Ex, Ey; exact Hxy).
  destruct (Qeq_bool p 0) eqn:Tp; destruct (Qeq_bool q 0) eqn:Tq.
  - apply Qle_refl.
  - apply Qeq_bool_iff in Tp. apply Qeq_bool_neq in Tq.
    assert (Hq : 0 < q).
    { apply Qnot_le_lt. intros Hc. apply Tq. lra. }
    destruct (on_grid_pos q Hq) as (H & _). exact H.
  - apply Qeq_bool_iff in Tq. apply Qeq_bool_neq in Tp.
    assert (Hp : p < 0).
    { apply Qnot_le_lt. intros Hc. apply Tp. lra. }
    destruct (on_grid_neg p Hp) as (H & _). exact H.
  - apply Qeq_bool_neq in Tp, Tq. apply on_grid_mono; assumption.
Qed.

(** The error of one rounding: a relative error of [2^-53], or half the
    spacing of the subnormal values. *)
Lemma rnd64_error (x : Q) : Qabs (rnd64 x - x) <= u64 * Qabs x + eta64.
Proof.
  rewrite rnd64_eq.
  pose proof (Qred_correct x) as Ex. set (q := Qred x) in *.
  rewrite <- Ex. clearbody q. clear Ex x.
  pose proof (pow2_pos (-53)) as Hu. pose proof (pow2_pos (-1075)) as Heta.
  fold u64 in Hu. fold eta64 in Heta.
  pose proof (Qabs_nonneg q) as Hq0.
  destruct (Qeq_bool q 0) eqn:T.
  - apply Qeq_bool_iff in T.
    assert (E : 0 - q == 0) by lra. rewrite E. change (Qabs 0) with 0. nra.
  - apply Qeq_bool_neq in T. unfold on_grid.
    pose proof (ulp_pos q) as Hp.
    assert (Et : q / ulp q * ulp q == q) by (field; lra).
    pose proof (rint_bounds (q / ulp q)) as [B1 B2].
    set (t := q / ulp q) in *. set (m := inject_Z (rint t)) in *.
    assert (Hhalf : ulp q == 2 * 2 ^ (expo q - 53)).
    { unfold ulp. rewrite <- pow2_succ.
      replace (expo q - 53 + 1)%Z with (expo q - 52)%Z by lia. reflexivity. }
    pose proof (pow2_pos (expo q - 53)) as Hh.
    assert (Hb : 2 ^ (expo q - 53) <= u64 * Qabs q + eta64).
    { destruct (Z.eq_dec (expo q) emin) as [E | NE].
      - rewrite E. change (emin - 53)%Z with (-1075)%Z. fold eta64. nra.
      - pose proof (expo_lower q T ltac:(unfold expo in *; lia)) as Hl.
        replace (expo q - 53)%Z with (expo q + -53)%Z by lia.
        rewrite pow2_add. fold u64.
        pose proof (pow2_pos (expo q)). set (P := 2 ^ expo q) in *. nra. }
    set (h := 2 ^ (expo q - 53)) in *. set (a := Qabs q) in *.
    apply Qabs_Qle_condition. split; nra.
Qed.

(** Rounding to two decimals: the product by 100 is rounded, then its
    nearest integer is divided by 100 and rounded. *)
Lemma np_round_2 (x : Q) :
  np_round x 2 = fdiv (inject_Z (rint (fmul x 100))) 100.
Proof.
  unfold np_round. change (0 <=? 2)%Z with true. cbv iota.
  replace (rnd64 (inject_Z (10 ^ 2))) with 100 by (vm_compute; reflexivity).
  reflexivity.
Qed.

(** Rounding to two decimals is monotone. *)
Lemma np_round_2_mono (x y : Q) : x <= y -> np_round x 2 <= np_round y 2.
Proof.
  intros Hxy. rewrite !np_round_2. unfold fdiv, fmul.
  apply rnd64_mono.
  assert (H : (rint (rnd64 (x * 100)) <= rint (rnd64 (y * 100)))%Z).
  { apply rint_mono, rnd64_mono. lra. }
  rewrite Zle_Qle in H.
  apply Qmult_le_compat_r; [exact H | discriminate].
Qed.

(** Rounding to two decimals gives one result for equal rationals,
    whatever their fractions. *)
Lemma np_round_2_Qeq (x y : Q) : x == y -> np_round x 2 = np_round y 2.
Proof.
  intros E. rewrite !np_round_2. unfold fmul.
  rewrite (rnd64_Qeq (x * 100) (y * 100)); [reflexivity |].
  rewrite E. reflexivity.
Qed.

End Rounding.

(* ===================================================================== *)
(** * The pairwise summation and its accuracy *)

Section Summation.
Local Open Scope Q_scope.

Lemma float_sum_eq (s : Q) (l l' : list Q) (k k' : nat) :
  float_sum s l k -> l ≡ₚ l' -> k = k' -> float_sum s l' k'.
Proof. intros H Hp <-. eapply float_sum_perm; eassumption. Qed.

(** Adding the elements of [l] one by one to a sum. *)
Lemma fold_left_float_sum (l la : list Q) (acc : Q) (ka : nat) :
  float_sum acc la ka ->
  float_sum (fold_left fadd l acc) (la ++ l) (ka + length l).
Proof.
  revert la acc ka. induction l as [| x l IH]; intros la acc ka Ha; cbn [fold_left].
  - eapply float_sum_eq; [exact Ha | rewrite app_nil_r; reflexivity | simpl; lia].
  - eapply float_sum_eq.
    + apply (IH (la ++ [x]) (fadd acc x) (Datatypes.S (ka + 0))).
      apply float_sum_add; [exact Ha | apply float_sum_one].
    + rewrite <- app_assoc. reflexivity.
    + simpl. lia.
Qed.

Lemma running_step (r c : list Q) (Ls : list (list Q)) :
  Forall2 running r Ls -> length c = length r ->
  Forall2 running (zip_with fadd r c) (zip_with (fun L x => L ++ [x]) Ls c) /\
  concat (zip_with (fun L x => L ++ [x]) Ls c) ≡ₚ concat Ls ++ c.
Proof.
  intros HF. revert c. induction HF as [| s L r Ls [Hne Hs] _ IH]; intros c Hc.
  - destruct c; [| discriminate]. split; [constructor | reflexivity].
  - destruct c as [| x c]; [discriminate |]. injection Hc as Hc.
    destruct (IH c Hc) as [IH1 IH2]. cbn [zip_with concat]. split.
    + constructor; [| exact IH1]. split; [destruct L; discriminate |].
      eapply float_sum_eq;
        [apply float_sum_add; [exact Hs | apply (float_sum_one x)] | reflexivity |].
      rewrite length_app. simpl.
      destruct L; [congruence | simpl; lia].
    + rewrite IH2. rewrite <- !app_assoc.
      apply Permutation_app_head.
      rewrite (app_assoc [x]), (Permutation_app_comm [x] (concat Ls)).
      rewrite <- app_assoc. reflexivity.
Qed.

Lemma unrolled_running (k : nat) (r l : list Q) (Ls : list (list Q)) :
  Forall2 running r Ls -> length r = 8%nat -> (8 * k <= length l)%nat ->
  exists Ls',
    Forall2 running (fst (unrolled k r l)) Ls' /\
    length (fst (unrolled k r l)) = 8%nat /\
    snd (unrolled k r l) = drop (8 * k) l /\
    concat Ls' ≡ₚ concat Ls ++ take (8 * k) l.
Proof.
  revert r l Ls. induction k as [| k IH]; intros r l Ls HF Hr Hl.
  - exists Ls. cbn [unrolled fst snd]. replace (8 * 0)%nat with 0%nat by lia.
    rewrite take_0, drop_0, app_nil_r.
    split; [exact HF |]. split; [exact Hr |]. split; reflexivity.
  - cbn [unrolled].
    assert (Hc : length (take 8 l) = length r) by (rewrite length_take; lia).
    destruct (running_step r (take 8 l) Ls HF Hc) as [S1 S2].
    destruct (IH (zip_with fadd r (take 8 l)) (drop 8 l) _ S1) as (Ls' & F & L8 & Er & Ep).
    { rewrite length_zip_with, length_take. lia. }
    { rewrite length_drop. lia. }
    exists Ls'. split; [exact F |]. split; [exact L8 |]. split.
    + rewrite Er, drop_drop. f_equal. lia.
    + rewrite Ep, S2, <- app_assoc. apply Permutation_app_head.
      rewrite take_take_drop. replace (8 + 8 * k)%nat with (8 * Datatypes.S k)%nat by lia.
      reflexivity.
Qed.

Lemma combine8_running (r : list Q) (Ls : list (list Q)) :
  Forall2 running r Ls -> length r = 8%nat -> running (combine8 r) (concat Ls).
Proof.
  intros HF Hr.
  do 8 (destruct HF as [| ? ? ? ? [? ?] HF]; [discriminate Hr |]).
  destruct HF; [| discriminate Hr].
  cbn [combine8 concat]. rewrite app_nil_r. split.
  - destruct y; [congruence | discriminate].
  - eapply float_sum_eq.
    + apply float_sum_add;
        (apply float_sum_add; apply float_sum_add; eassumption).
    + rewrite <- !app_assoc. reflexivity.
    + rewrite !length_app.
      repeat match goal with
             | Hn : ?L <> [] |- _ =>
                 assert (1 <= length L)%nat by (destruct L; [congruence | simpl; lia]);
                 clear Hn
             end.
      lia.
Qed.

Lemma singletons_running (l : list Q) :
  Forall2 running l (map (fun x => [x]) l) /\ concat (map (fun x => [x]) l) = l.
Proof.
  induction l as [| x l [IH1 IH2]]; [split; [constructor | reflexivity] |].
  cbn [map concat]. split.
  - constructor; [| exact IH1]. split; [discriminate | apply float_sum_one].
  - simpl. congruence.
Qed.

(** The sum of a block of eight elements or more. *)
Lemma block_sum_float_sum (l : list Q) :
  (8 <= length l)%nat -> float_sum (block_sum l) l (length l - 1).
Proof.
  intros Hn. unfold block_sum.
  set (k := (length l / 8 - 1)%nat).
  assert (Hk : (8 * k <= length (drop 8 l))%nat).
  { rewrite length_drop. unfold k.
    pose proof (Nat.div_mod_eq (length l) 8). lia. }
  destruct (singletons_running (take 8 l)) as [F0 E0].
  destruct (unrolled_running k (take 8 l) (drop 8 l) _ F0) as (Ls' & F & L8 & Er & Ep);
    [rewrite length_take; lia | exact Hk |].
  destruct (unrolled k (take 8 l) (drop 8 l)) as [r rest]. cbn [fst snd] in *.
  destruct (combine8_running r Ls' F L8) as [_ Hc].
  rewrite E0 in Ep.
  assert (Hlen : length (concat Ls') = (8 + 8 * k)%nat).
  { rewrite length_drop in Hk.
    rewrite (Permutation_length Ep), length_app, !length_take, length_drop. lia. }
  eapply float_sum_eq.
  - apply (fold_left_float_sum rest _ _ _ Hc).
  - rewrite Ep, Er, <- app_assoc, take_drop, take_drop. reflexivity.
  - rewrite length_drop in Hk. rewrite Hlen, Er, !length_drop. lia.
Qed.

(** NumPy's sum is a floating-point sum of the elements, in fewer
    additions than twice their number. *)
Lemma pairwise_sum_float_sum (fuel : nat) (l : list Q) :
  exists k, float_sum (pairwise_sum fuel l) l k /\ (k <= 2 * length l - 1)%nat.
Proof.
  revert l. induction fuel as [| fuel IH]; intros l; cbn [pairwise_sum].
  - destruct (Nat.ltb_spec (length l) 8) as [H8 | H8].
    + exists (0 + length l)%nat. split.
      * apply (fold_left_float_sum l [] 0 0 float_sum_zero).
      * lia.
    + assert (Hb : float_sum (block_sum l) l (length l - 1))
        by (apply block_sum_float_sum; exact H8).
      destruct (length l <=? 128)%nat; exists (length l - 1)%nat; split;
        try exact Hb; lia.
  - destruct (Nat.ltb_spec (length l) 8) as [H8 | H8].
    + exists (0 + length l)%nat. split.
      * apply (fold_left_float_sum l [] 0 0 float_sum_zero).
      * lia.
    + destruct (Nat.leb_spec (length l) 128) as [H128 | H128].
      * exists (length l - 1)%nat. split; [apply block_sum_float_sum; exact H8 | lia].
      * set (n2 := (length l / 2 - (length l / 2) mod 8)%nat).
        assert (Hn2 : (1 <= n2 < length l)%nat).
        { unfold n2. pose proof (Nat.div_mod_eq (length l) 2).
          pose proof (Nat.mod_upper_bound (length l) 2 ltac:(lia)).
          pose proof (Nat.mod_upper_bound (length l / 2) 8 ltac:(lia)). lia. }
        destruct (IH (take n2 l)) as (k1 & S1 & K1).
        destruct (IH (drop n2 l)) as (k2 & S2 & K2).
        rewrite length_take in K1. rewrite length_drop in K2.
        exists (Datatypes.S (k1 + k2)). split.
        -- eapply float_sum_eq;
             [apply float_sum_add; [exact S1 | exact S2] | rewrite take_drop | ];
             reflexivity.
        -- lia.
Qed.

Lemma np_sum_float_sum (l : list Q) :
  exists k, float_sum (np_sum l) l k /\ (k <= 2 * length l - 1)%nat.
Proof. apply pairwise_sum_float_sum. Qed.

(** The length of the array is fuel enough: more fuel changes nothing. *)
Lemma pairwise_sum_fuel (fuel1 fuel2 : nat) (l : list Q) :
  (length l <= fuel1)%nat -> (length l <= fuel2)%nat ->
  pairwise_sum fuel1 l = pairwise_sum fuel2 l.
Proof.
  revert fuel2 l. induction fuel1 as [| fuel1 IH]; intros fuel2 l H1 H2.
  - destruct l; [| simpl in H1; lia]. destruct fuel2; reflexivity.
  - destruct fuel2 as [| fuel2].
    { destruct l; [reflexivity | simpl in H2; lia]. }
    cbn [pairwise_sum].
    destruct (Nat.ltb_spec (length l) 8) as [H8 | H8]; [reflexivity |].
    destruct (Nat.leb_spec (length l) 128) as [H128 | H128]; [reflexivity |].
    set (n2 := (length l / 2 - (length l / 2) mod 8)%nat).
    assert (Hn2 : (1 <= n2 < length l)%nat).
    { unfold n2. pose proof (Nat.div_mod_eq (length l) 2).
      pose proof (Nat.mod_upper_bound (length l) 2 ltac:(lia)).
      pose proof (Nat.mod_upper_bound (length l / 2) 8 ltac:(lia)). lia. }
    rewrite (IH fuel2 (take n2 l)), (IH fuel2 (drop n2 l));
      rewrite ?length_take, ?length_drop; try lia. reflexivity.
Qed.

(** The recursion of NumPy's sum, as the library has it. *)
Lemma np_sum_unfold (l : list Q) :
  np_sum l =
    if (length l <? 8)%nat then fold_left fadd l 0
    else if (length l <=? 128)%nat then block_sum l
    else let n2 := (length l / 2 - (length l / 2) mod 8)%nat in
         fadd (np_sum (take n2 l)) (np_sum (drop n2 l)).
Proof.
  unfold np_sum. destruct l as [| x l]; [reflexivity |].
  set (l0 := x :: l). change (length l0) with (Datatypes.S (length l)) at 1.
  cbn [pairwise_sum].
  destruct (Nat.ltb_spec (length l0) 8) as [H8 | H8]; [reflexivity |].
  destruct (Nat.leb_spec (length l0) 128) as [H128 | H128]; [reflexivity |].
  cbv zeta. set (n2 := (length l0 / 2 - (length l0 / 2) mod 8)%nat).
  assert (Hn2 : (1 <= n2 < length l0)%nat).
  { unfold n2. pose proof (Nat.div_mod_eq (length l0) 2).
    pose proof (Nat.mod_upper_bound (length l0) 2 ltac:(lia)).
    pose proof (Nat.mod_upper_bound (length l0 / 2) 8 ltac:(lia)). lia. }
  assert (Hl : length l0 = Datatypes.S (length l)) by reflexivity.
  f_equal; apply pairwise_sum_fuel; rewrite ?length_take, ?length_drop; lia.
Qed.

End Summation.

(* ===================================================================== *)
(** * The accuracy of a sum and of a mean *)

Section Accuracy.
Local Open Scope Q_scope.

Lemma u64_val : u64 == 1 # 9007199254740992.
Proof. vm_compute. reflexivity. Qed.

Lemma eta64_small : 0 < eta64 /\ eta64 <= 1 # 1000000000000000000000000000000.
Proof.
  split; [apply pow2_pos |]. unfold eta64.
  eapply Qle_trans; [apply (pow2_le (-1075) (-100)); lia |].
  vm_compute. discriminate.
Qed.

Lemma add_error_small : 0 < add_error /\ add_error <= 223 # 1000000.
Proof.
  unfold add_error. pose proof u64_val as Hu. destruct eta64_small as [H1 H2].
  set (u := u64) in *. set (e := eta64) in *. split; lra.
Qed.

Lemma Qsum_app (l1 l2 : list Q) : Qsum (l1 ++ l2) == Qsum l1 + Qsum l2.
Proof.
  induction l1 as [| x l1 IH]; cbn [app Qsum fold_right].
  - fold (Qsum l2). ring.
  - fold (Qsum (l1 ++ l2)) (Qsum l1). rewrite IH. ring.
Qed.

Lemma Qsum_Permutation (l l' : list Q) : l ≡ₚ l' -> Qsum l == Qsum l'.
Proof.
  induction 1 as [| x l l' _ IH | x y l | l l' l'' _ IH1 _ IH2]; cbn [Qsum fold_right].
  - reflexivity.
  - fold (Qsum l) (Qsum l'). rewrite IH. reflexivity.
  - ring.
  - fold (Qsum l) (Qsum l') (Qsum l'') in *. rewrite IH1. exact IH2.
Qed.

Lemma Qsum_abs (l : list Q) :
  Forall (fun x => Qabs x <= reading_bound) l ->
  Qabs (Qsum l) <= inject_Z (Z.of_nat (length l)) * reading_bound.
Proof.
  unfold reading_bound.
  induction 1 as [| x l Hx _ IH]; cbn [Qsum fold_right].
  - change (inject_Z (Z.of_nat (length (@nil Q)))) with 0. change (Qabs 0) with 0. lra.
  - fold (Qsum l). change (length (x :: l)) with (Datatypes.S (length l)).
    rewrite Nat2Z.inj_succ, <- Z.add_1_r, inject_Z_plus. change (inject_Z 1) with 1.
    apply Qabs_Qle_condition in Hx, IH. apply Qabs_Qle_condition.
    set (n := inject_Z (Z.of_nat (length l))) in *. split; lra.
Qed.

Lemma bounded_readings_app (l1 l2 : list Q) :
  bounded_readings (l1 ++ l2) -> bounded_readings l1 /\ bounded_readings l2.
Proof.
  unfold bounded_readings. rewrite length_app, Forall_app. intros [Hl [H1 H2]].
  split; (split; [lia | assumption]).
Qed.

Lemma bounded_readings_Permutation (l l' : list Q) :
  l ≡ₚ l' -> bounded_readings l' -> bounded_readings l.
Proof.
  unfold bounded_readings. intros Hp [Hl HF]. split.
  - rewrite (Permutation_length Hp). exact Hl.
  - rewrite Hp. exact HF.
Qed.

(** A floating-point sum of bounded readings is close to their exact
    sum: each addition adds [add_error] at most. *)
Lemma float_sum_error (s : Q) (l : list Q) (k : nat) :
  float_sum s l k -> (Z.of_nat k <= 2000000)%Z -> bounded_readings l ->
  Qabs (s - Qsum l) <= inject_Z (Z.of_nat k) * add_error.
Proof.
  destruct add_error_small as [D0 D1].
  induction 1 as [| x | s1 s2 l1 l2 k1 k2 H1 IH1 H2 IH2 | s l l' k H IH Hp];
    intros Hk Hb.
  - cbn [Qsum fold_right]. change (Qabs (0 - 0)) with 0.
    change (inject_Z (Z.of_nat 0)) with 0. lra.
  - cbn [Qsum fold_right]. change (inject_Z (Z.of_nat 0)) with 0.
    assert (E : x - (x + 0) == 0) by ring. rewrite E. change (Qabs 0) with 0. lra.
  - destruct (bounded_readings_app _ _ Hb) as [Hb1 Hb2].
    specialize (IH1 ltac:(lia) Hb1). specialize (IH2 ltac:(lia) Hb2).
    destruct Hb as [Hlen _]. destruct Hb1 as [_ F1]. destruct Hb2 as [_ F2].
    pose proof (Qsum_abs l1 F1) as A1. pose proof (Qsum_abs l2 F2) as A2.
    rewrite length_app, Nat2Z.inj_add in Hlen. unfold length_bound in Hlen.
    rewrite Zle_Qle, inject_Z_plus in Hlen.
    assert (K1 : inject_Z (Z.of_nat k1) + inject_Z (Z.of_nat k2) <= 2000000).
    { rewrite <- inject_Z_plus, <- Nat2Z.inj_add.
      change 2000000 with (inject_Z 2000000). rewrite <- Zle_Qle. lia. }
    assert (K10 : 0 <= inject_Z (Z.of_nat k1)).
    { change 0 with (inject_Z 0). rewrite <- Zle_Qle. lia. }
    assert (K20 : 0 <= inject_Z (Z.of_nat k2)).
    { change 0 with (inject_Z 0). rewrite <- Zle_Qle. lia. }
    assert (N10 : 0 <= inject_Z (Z.of_nat (length l1))).
    { change 0 with (inject_Z 0). rewrite <- Zle_Qle. lia. }
    assert (N20 : 0 <= inject_Z (Z.of_nat (length l2))).
    { change 0 with (inject_Z 0). rewrite <- Zle_Qle. lia. }
    rewrite Nat2Z.inj_succ, <- Z.add_1_r, Nat2Z.inj_add, !inject_Z_plus.
    change (inject_Z 1) with 1. change (inject_Z 1000000) with 1000000 in Hlen.
    rewrite Qsum_app. unfold fadd.
    pose proof (rnd64_error (s1 + s2)) as R.
    unfold reading_bound in A1, A2. unfold add_error in *.
    pose proof u64_val as Hu. destruct eta64_small as [E0 E1].
    set (u := u64) in *. set (e := eta64) in *.
    set (r := rnd64 (s1 + s2)) in *.
    set (n1 := inject_Z (Z.of_nat (length l1))) in *.
    set (n2 := inject_Z (Z.of_nat (length l2))) in *.
    set (c1 := inject_Z (Z.of_nat k1)) in *. set (c2 := inject_Z (Z.of_nat k2)) in *.
    set (d := u * 2000000000000 + e) in *.
    assert (Dd : d == u * 2000000000000 + e) by reflexivity.
    assert (C1 : c1 * d <= 2000000 * d) by nra.
    assert (C2 : c2 * d <= 2000000 * d) by nra.
    assert (C3 : (c1 + c2) * d <= 2000000 * d) by nra.
    assert (C10 : 0 <= c1 * d) by nra. assert (C20 : 0 <= c2 * d) by nra.
    set (p1 := c1 * d) in *. set (p2 := c2 * d) in *.
    apply Qabs_Qle_condition in IH1, IH2, A1, A2.
    assert (Hs : Qabs (s1 + s2) <= 2000000000000).
    { apply Qabs_Qle_condition. split; lra. }
    set (a := Qabs (s1 + s2)) in *.
    assert (Ua : u * a <= u * 2000000000000) by nra.
    assert (Ed : (c1 + c2 + 1) * d == p1 + p2 + d) by (unfold p1, p2; ring).
    rewrite Ed.
    apply Qabs_Qle_condition in R. apply Qabs_Qle_condition.
    split; lra.
  - rewrite <- (Qsum_Permutation l l' Hp).
    apply IH; [exact Hk | eapply bounded_readings_Permutation; eassumption].
Qed.

(** The [float64] mean of bounded readings is within [mean_error] of
    their exact mean. *)
Lemma Series_mean_accuracy (l : list Q) :
  l <> [] -> bounded_readings l ->
  exists m,
    Series_mean l = Finite m /\
    Qabs (m - Qsum l / inject_Z (Z.of_nat (length l))) <= mean_error.
Proof.
  intros Hne Hb. destruct l as [| x l']; [congruence |].
  set (l := x :: l') in *. cbn [Series_mean]. fold l.
  eexists. split; [reflexivity |].
  destruct (np_sum_float_sum l) as (k & Hs & Hk).
  pose proof Hb as [Hlen HF]. unfold length_bound in Hlen.
  pose proof (float_sum_error _ _ _ Hs ltac:(lia) Hb) as He.
  pose proof (Qsum_abs l HF) as HA. unfold reading_bound in HA.
  assert (Hn1 : 1 <= inject_Z (Z.of_nat (length l))).
  { change 1 with (inject_Z 1). rewrite <- Zle_Qle. unfold l. simpl length. lia. }
  assert (HK : inject_Z (Z.of_nat k) <= 2 * inject_Z (Z.of_nat (length l))).
  { change 2 with (inject_Z 2). rewrite <- inject_Z_mult, <- Zle_Qle. lia. }
  assert (HK0 : 0 <= inject_Z (Z.of_nat k)).
  { change 0 with (inject_Z 0). rewrite <- Zle_Qle. lia. }
  unfold fdiv. pose proof (rnd64_error (np_sum l / inject_Z (Z.of_nat (length l)))) as R.
  destruct add_error_small as [D0 D1]. pose proof u64_val as Hu.
  destruct eta64_small as [E0 E1]. unfold mean_error.
  set (n := inject_Z (Z.of_nat (length l))) in *.
  set (s := np_sum l) in *. set (S0 := Qsum l) in *.
  assert (Ey : s / n * n == s) by (field; lra).
  assert (Em : S0 / n * n == S0) by (field; lra).
  set (y := s / n) in *. set (mu := S0 / n) in *.
  set (c := inject_Z (Z.of_nat k)) in *. set (d := add_error) in *.
  set (u := u64) in *. set (e := eta64) in *.
  assert (Cd : c * d <= 2 * n * d) by nra.
  assert (Cd0 : 0 <= c * d) by nra.
  set (p := c * d) in *.
  apply Qabs_Qle_condition in He, HA.
  assert (Hy : Qabs (y - mu) <= 2 * d).
  { apply Qabs_Qle_condition. split; apply Qnot_lt_le; intros Hc; nra. }
  assert (Hmu : Qabs mu <= 1000000).
  { apply Qabs_Qle_condition. split; apply Qnot_lt_le; intros Hc; nra. }
  apply Qabs_Qle_condition in Hy, Hmu.
  assert (Hya : Qabs y <= 1000001).
  { apply Qabs_Qle_condition. split; lra. }
  set (a := Qabs y) in *.
  assert (Ua : u * a <= u * 1000001) by nra.
  apply Qabs_Qle_condition in R. apply Qabs_Qle_condition.
  set (r := rnd64 y) in *. split; lra.
Qed.

(** When [y] is hardly below [x], the hundredths nearest to [y] are one
    below those nearest to [x] at most. *)
Lemma hundredths_slack (x y : Q) :
  Qabs x <= 1000001 -> Qabs y <= 1000001 -> x - mean_error <= y ->
  (rint (fmul x 100) - 1 <= rint (fmul y 100))%Z.
Proof.
  intros Hx Hy Hxy. unfold fmul, mean_error in *.
  pose proof (rnd64_error (x * 100)) as Rx. pose proof (rnd64_error (y * 100)) as Ry.
  pose proof (rint_bounds (rnd64 (x * 100))) as [Bx1 Bx2].
  pose proof (rint_bounds (rnd64 (y * 100))) as [By1 By2].
  pose proof u64_val as Hu. destruct eta64_small as [E0 E1].
  assert (Ax : Qabs (x * 100) <= 100000100).
  { apply Qabs_Qle_condition in Hx. apply Qabs_Qle_condition. split; lra. }
  assert (Ay : Qabs (y * 100) <= 100000100).
  { apply Qabs_Qle_condition in Hy. apply Qabs_Qle_condition. split; lra. }
  set (u := u64) in *. set (e := eta64) in *.
  set (ax := Qabs (x * 100)) in *. set (ay := Qabs (y * 100)) in *.
  assert (Ux : u * ax <= u * 100000100) by nra.
  assert (Uy : u * ay <= u * 100000100) by nra.
  apply Qabs_Qle_condition in Rx, Ry.
  set (px := rnd64 (x * 100)) in *. set (py := rnd64 (y * 100)) in *.
  assert (H : inject_Z (rint px) - 2 < inject_Z (rint py)) by lra.
  change 2 with (inject_Z 2) in H. unfold Qminus in H.
  rewrite <- inject_Z_opp, <- inject_Z_plus, <- Zlt_Qlt in H. lia.
Qed.

End Accuracy.

(* ===================================================================== *)
(** * Minimum, mean and maximum of a series *)

Section Aggregates.
Local Open Scope Q_scope.

Lemma fold_left_Qmin_le (xs : list Q) (x : Q) :
  fold_left Qmin xs x <= x /\ Forall (fun y => fold_left Qmin xs x <= y) xs.
Proof.
  revert x. induction xs as [| a xs IH]; intros x; simpl.
  - split; [apply Qle_refl | constructor].
  - destruct (IH (Qmin x a)) as [H1 H2]. split.
    + eapply Qle_trans; [exact H1 | apply Q.le_min_l].
    + constructor; [| exact H2].
      eapply Qle_trans; [exact H1 | apply Q.le_min_r].
Qed.

Lemma fold_left_Qmax_ge (xs : list Q) (x : Q) :
  x <= fold_left Qmax xs x /\ Forall (fun y => y <= fold_left Qmax xs x) xs.
Proof.
  revert x. induction xs as [| a xs IH]; intros x; simpl.
  - split; [apply Qle_refl | constructor].
  - destruct (IH (Qmax x a)) as [H1 H2]. split.
    + eapply Qle_trans; [apply Q.le_max_l | exact H1].
    + constructor; [| exact H2].
      eapply Qle_trans; [apply Q.le_max_r | exact H1].
Qed.

Lemma Qsum_lower (lo : Q) (l : list Q) :
  Forall (fun y => lo <= y) l -> inject_Z (Z.of_nat (length l)) * lo <= Qsum l.
Proof.
  induction 1 as [| y l Hy _ IH]; simpl Qsum.
  - change (inject_Z (Z.of_nat (length (@nil Q)))) with 0. lra.
  - change (length (y :: l)) with (Datatypes.S (length l)).
    rewrite Nat2Z.inj_succ, <- Z.add_1_r, inject_Z_plus.
    change (inject_Z 1) with 1.
    set (n := inject_Z (Z.of_nat (length l))) in *. nra.
Qed.

Lemma Qsum_upper (hi : Q) (l : list Q) :
  Forall (fun y => y <= hi) l -> Qsum l <= inject_Z (Z.of_nat (length l)) * hi.
Proof.
  induction 1 as [| y l Hy _ IH]; simpl Qsum.
  - change (inject_Z (Z.of_nat (length (@nil Q)))) with 0. lra.
  - change (length (y :: l)) with (Datatypes.S (length l)).
    rewrite Nat2Z.inj_succ, <- Z.add_1_r, inject_Z_plus.
    change (inject_Z 1) with 1.
    set (n := inject_Z (Z.of_nat (length l))) in *. nra.
Qed.

Lemma Qmax_cases (x y : Q) : Qmax x y = x \/ Qmax x y = y.
Proof. unfold Qmax, GenericMinMax.gmax. destruct (x ?= y); auto. Qed.

Lemma Qmin_cases (x y : Q) : Qmin x y = x \/ Qmin x y = y.
Proof. unfold Qmin, GenericMinMax.gmin. destruct (x ?= y); auto. Qed.

Lemma fold_left_Qmax_elem (xs : list Q) (x : Q) : fold_left Qmax xs x ∈ x :: xs.
Proof.
  revert x. induction xs as [| a xs IH]; intros x; cbn [fold_left].
  - apply list_elem_of_here.
  - specialize (IH (Qmax x a)). apply elem_of_cons in IH as [-> | IH].
    + destruct (Qmax_cases x a) as [-> | ->];
        [apply list_elem_of_here | apply list_elem_of_further, list_elem_of_here].
    + do 2 apply list_elem_of_further. exact IH.
Qed.

Lemma fold_left_Qmin_elem (xs : list Q) (x : Q) : fold_left Qmin xs x ∈ x :: xs.
Proof.
  revert x. induction xs as [| a xs IH]; intros x; cbn [fold_left].
  - apply list_elem_of_here.
  - specialize (IH (Qmin x a)). apply elem_of_cons in IH as [-> | IH].
    + destruct (Qmin_cases x a) as [-> | ->];
        [apply list_elem_of_here | apply list_elem_of_further, list_elem_of_here].
    + do 2 apply list_elem_of_further. exact IH.
Qed.

(** The minimum and the maximum of a non-empty series are elements of it
    that bound every element. *)
Lemma Series_extremes (l : list Q) :
  l <> [] ->
  exists lo hi,
    Series_min l = Finite lo /\ Series_max l = Finite hi /\
    lo ∈ l /\ hi ∈ l /\ Forall (fun y => lo <= y <= hi) l.
Proof.
  destruct l as [| x xs]; [congruence |]. intros _.
  exists (fold_left Qmin xs x), (fold_left Qmax xs x).
  split; [reflexivity |]. split; [reflexivity |].
  destruct (fold_left_Qmin_le xs x) as [L1 L2].
  destruct (fold_left_Qmax_ge xs x) as [U1 U2].
  split; [apply fold_left_Qmin_elem |]. split; [apply fold_left_Qmax_elem |].
  constructor; [split; assumption |].
  rewrite Forall_forall in L2, U2. apply Forall_forall. intros y Hy.
  split; [apply L2, Hy | apply U2, Hy].
Qed.

(** The exact mean of a non-empty series lies between two bounds of its
    elements. *)
Lemma exact_mean_between (l : list Q) (lo hi : Q) :
  l <> [] -> Forall (fun y => lo <= y <= hi) l ->
  lo <= Qsum l / inject_Z (Z.of_nat (length l)) <= hi.
Proof.
  intros Hne Hall.
  assert (Hn : 0 < inject_Z (Z.of_nat (length l))).
  { change 0 with (inject_Z 0). rewrite <- Zlt_Qlt. destruct l; [congruence | simpl; lia]. }
  split.
  - apply Qle_shift_div_l; [exact Hn |]. rewrite Qmult_comm. apply Qsum_lower.
    eapply Forall_impl; [exact Hall |]. intros y [H _]. exact H.
  - apply Qle_shift_div_r; [exact Hn |]. rewrite Qmult_comm. apply Qsum_upper.
    eapply Forall_impl; [exact Hall |]. intros y [_ H]. exact H.
Qed.

End Aggregates.

(* ===================================================================== *)
(** * The calendar and the layout of a rendered timestamp *)

(** The day-of-era, year-of-era and day-of-year of [civil_from_days],
    named and bounded. *)
Ltac civil_ranges days :=
  set (z := days + 719468);
  set (era := z / 146097);
  set (doe := z - era * 146097);
  assert (Hdoe : 0 <= doe <= 146096)
    by (unfold doe, era; pose proof (Z.mod_pos_bound z 146097 ltac:(lia));
        pose proof (Z.div_mod z 146097 ltac:(lia)); lia);
  assert (Hz : days = era * 146097 + doe - 719468) by (unfold doe, z; lia);
  clearbody doe era; clear z;
  set (yoe := (doe - doe / 1460 + doe / 36524 - doe / 146096) / 365);
  assert (Hyoe : 0 <= yoe <= 399) by (unfold yoe; Z.div_mod_to_equations; lia);
  set (doy := doe - (365 * yoe + yoe / 4 - yoe / 100));
  assert (Hdoy : 0 <= doy <= 365) by (unfold doy, yoe; Z.div_mod_to_equations; lia);
  assert (Hdoe' : doe = yoe * 365 + yoe / 4 - yoe / 100 + doy) by (unfold doy; lia);
  clearbody doy; clearbody yoe;
  set (mp := (5 * doy + 2) / 153);
  assert (Hmp : 0 <= mp <= 11) by (unfold mp; Z.div_mod_to_equations; lia).

(** The month and the day of a date are in range, and its year lies in
    the 400-year era of the day number. *)
Lemma civil_from_days_bounds (days : Z) :
  let '(y, m, d) := civil_from_days days in
  1 <= m <= 12 /\ 1 <= d <= 31 /\
  (days + 719468) / 146097 * 400 <= y <= (days + 719468) / 146097 * 400 + 400.
Proof.
  unfold civil_from_days.
  civil_ranges days.
  assert (Hd : 1 <= doy - (153 * mp + 2) / 5 + 1 <= 31)
    by (unfold mp; Z.div_mod_to_equations; lia).
  clearbody mp. cbv beta iota zeta.
  destruct (mp <? 10) eqn:E; [apply Z.ltb_lt in E | apply Z.ltb_ge in E];
    match goal with |- context [?a <=? 2] => destruct (a <=? 2) end; lia.
Qed.

(** [civil_from_days] gives the date whose day number is the one it was
    given: the rendered date is the calendar date of the instant. *)
Lemma days_from_civil_from_days (days : Z) :
  let '(y, m, d) := civil_from_days days in days_from_civil y m d = days.
Proof.
  unfold civil_from_days, days_from_civil.
  civil_ranges days.
  set (d := doy - (153 * mp + 2) / 5 + 1).
  assert (Hd : doy = (153 * mp + 2) / 5 + d - 1) by (unfold d; lia).
  clearbody d. clearbody mp. cbv beta iota zeta.
  destruct (mp <? 10) eqn:E; [apply Z.ltb_lt in E | apply Z.ltb_ge in E].
  - destruct (mp + 3 <=? 2) eqn:E1; [apply Z.leb_le in E1; lia |].
    destruct (2 <? mp + 3) eqn:E2; [| apply Z.ltb_ge in E2; lia].
    replace (yoe + era * 400 + 0) with (yoe + era * 400) by lia.
    replace ((yoe + era * 400) / 400) with era by (Z.div_mod_to_equations; lia).
    replace (mp + 3 - 3) with mp by lia.
    replace (yoe + era * 400 - era * 400) with yoe by lia. lia.
  - destruct (mp - 9 <=? 2) eqn:E1; [| apply Z.leb_gt in E1; lia].
    destruct (2 <? mp - 9) eqn:E2; [apply Z.ltb_lt in E2; lia |].
    replace (yoe + era * 400 + 1 - 1) with (yoe + era * 400) by lia.
    replace ((yoe + era * 400) / 400) with era by (Z.div_mod_to_equations; lia).
    replace (mp - 9 + 9) with mp by lia.
    replace (yoe + era * 400 - era * 400) with yoe by lia. lia.
Qed.

Lemma is_digit_digit (k : Z) : 0 <= k <= 9 -> is_digit (digit k) = true.
Proof.
  intros Hk.
  assert (Hc : k = 0 \/ k = 1 \/ k = 2 \/ k = 3 \/ k = 4 \/
               k = 5 \/ k = 6 \/ k = 7 \/ k = 8 \/ k = 9) by lia.
  repeat (destruct Hc as [-> | Hc]; [reflexivity |]). subst k. reflexivity.
Qed.

(** The fields of an instant of the [datetime64[ns]] range: the year has
    four digits and every other field two. *)
Lemma to_datetime_struct_bounds (t : Z) :
  in_bounds t ->
  let dt := to_datetime_struct t in
  1600 <= year dt <= 2400 /\ 1 <= month dt <= 12 /\ 1 <= day dt <= 31 /\
  0 <= hour dt <= 23 /\ 0 <= minute dt <= 59 /\ 0 <= second dt <= 59.
Proof.
  intros [Hlo Hhi]. unfold to_datetime_struct.
  pose proof (civil_from_days_bounds (t / ns_per_day)) as Hc.
  destruct (civil_from_days (t / ns_per_day)) as [[y m] d].
  destruct Hc as (Hm & Hd & Hy). cbn [year month day hour minute second].
  assert (He : 4 <= (t / ns_per_day + 719468) / 146097 <= 5).
  { unfold Timestamp_min, Timestamp_max, ns_per_day, ns_per_second in *.
    Z.div_mod_to_equations. lia. }
  set (sod := (t / ns_per_second) mod 86400).
  assert (Hs : 0 <= sod < 86400) by (apply Z.mod_pos_bound; lia).
  clearbody sod.
  repeat split; try lia; Z.div_mod_to_equations; lia.
Qed.

Lemma strftime_layout (t : Z) :
  in_bounds t ->
  has_layout "YYYY-MM-DD HH:MM:SS" (strftime "%Y-%m-%d %H:%M:%S" t) = true.
Proof.
  intros Ht. pose proof (to_datetime_struct_bounds t Ht) as Hb.
  unfold strftime. set (dt := to_datetime_struct t) in *.
  destruct Hb as (Hy & Hm & Hd & HH & HM & HS).
  clearbody dt. destruct dt as [y mo d h mi s].
  cbn [year month day hour minute second] in *.
  cbv -[digit is_digit Z.div Z.modulo].
  rewrite !is_digit_digit by (Z.div_mod_to_equations; lia).
  reflexivity.
Qed.

(* ===================================================================== *)
(** * Rendered timestamps, read back *)

Lemma digit_inj (j k : Z) : 0 <= j <= 9 -> 0 <= k <= 9 -> digit j = digit k -> j = k.
Proof.
  intros Hj Hk E. unfold digit in E. apply (f_equal nat_of_ascii) in E.
  rewrite !nat_ascii_embedding in E by lia. lia.
Qed.

Lemma pad2_digits_inj (n m : Z) :
  0 <= n <= 99 -> 0 <= m <= 99 ->
  digit (n / 10) = digit (m / 10) -> digit (n mod 10) = digit (m mod 10) -> n = m.
Proof.
  intros Hn Hm E1 E2.
  apply digit_inj in E1, E2; Z.div_mod_to_equations; lia.
Qed.

Lemma pad4_digits_inj (n m : Z) :
  0 <= n <= 9999 -> 0 <= m <= 9999 ->
  digit (n / 1000) = digit (m / 1000) ->
  digit ((n / 100) mod 10) = digit ((m / 100) mod 10) ->
  digit ((n mod 100) / 10) = digit ((m mod 100) / 10) ->
  digit ((n mod 100) mod 10) = digit ((m mod 100) mod 10) -> n = m.
Proof.
  intros Hn Hm E1 E2 E3 E4.
  assert (E : n mod 100 = m mod 100).
  { apply pad2_digits_inj; try assumption; Z.div_mod_to_equations; lia. }
  apply digit_inj in E1, E2; Z.div_mod_to_equations; lia.
Qed.

(** The fields of a date and time can be read back from its rendering. *)
Lemma format_datetime_inj (dt1 dt2 : datetime) :
  let ok dt := 0 <= year dt <= 9999 /\ 0 <= month dt <= 99 /\ 0 <= day dt <= 99 /\
               0 <= hour dt <= 99 /\ 0 <= minute dt <= 99 /\ 0 <= second dt <= 99 in
  ok dt1 -> ok dt2 ->
  format_datetime "%Y-%m-%d %H:%M:%S" dt1 = format_datetime "%Y-%m-%d %H:%M:%S" dt2 ->
  dt1 = dt2.
Proof.
  intros ok (Hy1 & Hm1 & Hd1 & HH1 & HM1 & HS1) (Hy2 & Hm2 & Hd2 & HH2 & HM2 & HS2) E.
  destruct dt1 as [y1 mo1 d1 h1 mi1 s1], dt2 as [y2 mo2 d2 h2 mi2 s2].
  cbn [year month day hour minute second] in *.
  cbv -[digit Z.div Z.modulo] in E.
  injection E as Ey1 Ey2 Ey3 Ey4 Em1 Em2 Ed1 Ed2 Eh1 Eh2 Ei1 Ei2 Es1 Es2.
  f_equal; first [ apply pad4_digits_inj; assumption | apply pad2_digits_inj; assumption ].
Qed.

Lemma days_of_seconds (t : Z) : t / ns_per_day = t / ns_per_second / 86400.
Proof.
  unfold ns_per_day. rewrite (Z.mul_comm 86400), Z.div_div by (unfold ns_per_second; lia).
  reflexivity.
Qed.

(** The broken-down time of an instant determines its second. *)
Lemma to_datetime_struct_inj (t1 t2 : Z) :
  to_datetime_struct t1 = to_datetime_struct t2 ->
  t1 / ns_per_second = t2 / ns_per_second.
Proof.
  unfold to_datetime_struct. rewrite !days_of_seconds.
  set (q1 := t1 / ns_per_second). set (q2 := t2 / ns_per_second).
  pose proof (days_from_civil_from_days (q1 / 86400)) as R1.
  pose proof (days_from_civil_from_days (q2 / 86400)) as R2.
  destruct (civil_from_days (q1 / 86400)) as [[y1 m1] d1].
  destruct (civil_from_days (q2 / 86400)) as [[y2 m2] d2].
  intros [= -> -> -> Eh Em Es].
  assert (Ed : q1 / 86400 = q2 / 86400) by congruence.
  clear R1 R2. Z.div_mod_to_equations. lia.
Qed.

(** The second of an instant of the [datetime64[ns]] range can be read
    back from its rendering. *)
Lemma strftime_second (t1 t2 : Z) :
  in_bounds t1 -> in_bounds t2 ->
  strftime "%Y-%m-%d %H:%M:%S" t1 = strftime "%Y-%m-%d %H:%M:%S" t2 ->
  t1 / ns_per_second = t2 / ns_per_second.
Proof.
  intros H1 H2 E. apply to_datetime_struct_inj. unfold strftime in E.
  pose proof (to_datetime_struct_bounds t1 H1) as B1.
  pose proof (to_datetime_struct_bounds t2 H2) as B2. cbv zeta in B1, B2.
  apply format_datetime_inj; [| | exact E]; cbv zeta; lia.
Qed.

(* ===================================================================== *)
(** * The generator *)

Section GeneratorFacts.
Context {S : Type} `{RandomState S}.

Lemma draws_length {A : Type} (draw : S -> A * S) (n : nat) (s : S) :
  length (fst (draws draw n s)) = n.
Proof.
  revert s. induction n as [| n IH]; intros s; simpl; [reflexivity |].
  destruct (draw s) as [x s1]. specialize (IH s1).
  destruct (draws draw n s1) as [xs s2]. simpl in *. congruence.
Qed.

Lemma draws_Forall {A : Type} (P : A -> Prop) (draw : S -> A * S) (n : nat) (s : S) :
  (forall s0, P (fst (draw s0))) -> Forall P (fst (draws draw n s)).
Proof.
  intros HP. revert s. induction n as [| n IH]; intros s; simpl; [constructor |].
  pose proof (HP s) as Hx. destruct (draw s) as [x s1]. specialize (IH s1).
  destruct (draws draw n s1) as [xs s2]. simpl in *. constructor; assumption.
Qed.

Lemma getitem_outcome {A : Type} (a : list A) (i : Z) :
  match getitem a i with
  | Ok x => x ∈ a
  | Raise e => e = IndexError
  end.
Proof.
  unfold getitem. cbv zeta.
  destruct (_ <? 0); [reflexivity |].
  destruct (nth_error a _) as [x |] eqn:E; [| reflexivity].
  apply list_elem_of_In. eapply nth_error_In; eassumption.
Qed.

Lemma getitem_in_range {A : Type} (a : list A) (i : Z) :
  0 <= i < Z.of_nat (length a) -> exists x, getitem a i = Ok x.
Proof.
  intros Hi. unfold getitem.
  destruct (Z.ltb_spec i 0) as [Hneg | _]; [lia |]. cbv zeta.
  destruct (Z.ltb_spec i 0) as [Hneg | _]; [lia |].
  destruct (nth_error a (Z.to_nat i)) as [x |] eqn:E; [eauto |].
  apply nth_error_None in E. lia.
Qed.

Lemma mapM_getitem_outcome {A : Type} (a : list A) (idx : list Z) :
  match mapM (getitem a) idx with
  | Ok xs => length xs = length idx /\ Forall (fun x => x ∈ a) xs
  | Raise e => e = IndexError
  end.
Proof.
  induction idx as [| i idx IH]; cbn [mapM result_bind].
  - split; constructor.
  - pose proof (getitem_outcome a i) as Hi.
    destruct (getitem a i) as [x | e]; cbn [result_bind]; [| exact Hi].
    destruct (mapM (getitem a) idx) as [xs | e]; cbn [result_bind]; [| exact IH].
    destruct IH as [Hl Hall]. split; [simpl; congruence | constructor; assumption].
Qed.

Lemma mapM_getitem {A : Type} (a : list A) (idx : list Z) :
  Forall (fun i => 0 <= i < Z.of_nat (length a)) idx ->
  exists xs, mapM (getitem a) idx = Ok xs.
Proof.
  induction 1 as [| i idx Hi _ (xs & E)]; simpl; [eauto |].
  destruct (getitem_in_range a i Hi) as (x & Ex).
  exists (x :: xs). rewrite Ex; simpl. rewrite E; reflexivity.
Qed.

Lemma rows_length (ts : list Z) (ids : list string) (xs hs : list Q) :
  length ids = length ts -> length xs = length ts -> length hs = length ts ->
  length (rows ts ids xs hs) = length ts /\
  column timestamp (rows ts ids xs hs) = ts /\
  column sensor_id (rows ts ids xs hs) = ids.
Proof.
  revert ids xs hs. induction ts as [| t ts IH]; intros [| i ids] [| x xs] [| h hs];
    simpl; intros H1 H2 H3; try discriminate; [repeat split |].
  destruct (IH ids xs hs) as (Hl & Ht & Hi); [congruence .. |].
  unfold column in *. repeat split; simpl; congruence.
Qed.

Lemma rows_columns (ts : list Z) (ids : list string) (xs hs : list Q) :
  length ids = length ts -> length xs = length ts -> length hs = length ts ->
  column temperature (rows ts ids xs hs) = xs /\
  column humidity (rows ts ids xs hs) = hs.
Proof.
  revert ids xs hs. induction ts as [| t ts IH]; intros [| i ids] [| x xs] [| h hs];
    simpl; intros H1 H2 H3; try discriminate; [split; reflexivity |].
  destruct (IH ids xs hs) as (Hx & Hh); [congruence .. |].
  unfold column in *. split; simpl; congruence.
Qed.

Lemma arange_minutes (now n : Z) :
  0 <= n ->
  arange (now + ns_per_minute - n * ns_per_minute) (now + ns_per_minute) ns_per_minute
    = minutes_before now n.
Proof.
  intros Hn. unfold arange, minutes_before.
  replace ((now + ns_per_minute - (now + ns_per_minute - n * ns_per_minute)
            + ns_per_minute - 1) / ns_per_minute) with n.
  - apply map_ext. intros k. lia.
  - unfold ns_per_minute, ns_per_second. Z.div_mod_to_equations. lia.
Qed.

(** A range that [date_range] returns: the count is not negative, the
    clock and the oldest instant are instants of the range, and the range
    holds the [n] instants that end at the clock. *)
Lemma date_range_Ok (now n : Z) (ts : list Z) :
  date_range now n "T" = Ok ts ->
  0 <= n /\ in_bounds now /\ Timestamp_min <= now - (n - 1) * ns_per_minute /\
  (now + ns_per_minute <= Timestamp_max \/ Timestamp_max < n * ns_per_minute) /\
  ts = minutes_before now n.
Proof.
  unfold date_range. change (to_offset "T") with (Some ns_per_minute).
  destruct (Z.leb_spec Timestamp_min now) as [B1 | B1]; [| discriminate].
  destruct (Z.leb_spec now Timestamp_max) as [B2 | B2]; [| discriminate].
  cbn [andb negb].
  destruct (Z.ltb_spec n 0) as [Hn | Hn]; [discriminate |].
  destruct (Z.leb_spec (2 ^ 64) n) as [Hn' | Hn']; [discriminate |]. cbn [orb]. cbv zeta.
  destruct (Z.leb_spec (2 ^ 64) (n * ns_per_minute)) as [Ha | Ha]; [discriminate |].
  destruct (Z.ltb_spec Timestamp_max (now + ns_per_minute)) as [He | He];
    destruct (Z.leb_spec (n * ns_per_minute) Timestamp_max) as [Hp | Hp];
    cbn [andb]; try discriminate;
    (destruct (Z.ltb_spec (now + ns_per_minute - n * ns_per_minute) Timestamp_min)
       as [Hb | Hb]; [discriminate |]);
    intros [= <-];
    (split; [exact Hn |]); (split; [split; assumption |]);
    (split; [lia |]); (split; [lia | apply arange_minutes; exact Hn]).
Qed.

(** When the clock leaves room for them, [date_range] returns the [n]
    instants that end at the clock. *)
Lemma date_range_minutes (now n : Z) :
  0 <= n -> clock_window now n ->
  date_range now n "T" = Ok (minutes_before now n).
Proof.
  intros Hn ([B1 B2] & He & Hb).
  unfold date_range. change (to_offset "T") with (Some ns_per_minute).
  destruct (Z.leb_spec Timestamp_min now) as [_ | Hc]; [| lia].
  destruct (Z.leb_spec now Timestamp_max) as [_ | Hc]; [| lia].
  cbn [andb negb].
  assert (Hm : 0 < ns_per_minute) by (unfold ns_per_minute, ns_per_second; lia).
  assert (Hw : n * ns_per_minute < 2 ^ 64).
  { unfold Timestamp_min, Timestamp_max in *. lia. }
  destruct (Z.ltb_spec n 0) as [Hc | _]; [lia |].
  destruct (Z.leb_spec (2 ^ 64) n) as [Hc | _]; [nia |]. cbn [orb]. cbv zeta.
  destruct (Z.leb_spec (2 ^ 64) (n * ns_per_minute)) as [Hc | _]; [lia |].
  destruct (Z.ltb_spec Timestamp_max (now + ns_per_minute)) as [Hc | _]; [lia |].
  cbn [andb].
  destruct (Z.ltb_spec (now + ns_per_minute - n * ns_per_minute) Timestamp_min)
    as [Hc | _]; [lia |].
  rewrite arange_minutes by exact Hn. reflexivity.
Qed.

(** A negative count makes [date_range] raise. *)
Lemma date_range_negative (now n : Z) :
  n < 0 -> exists e, date_range now n "T" = Raise e.
Proof.
  intros Hn. unfold date_range. change (to_offset "T") with (Some ns_per_minute).
  destruct (negb _); [eauto |].
  destruct (Z.ltb_spec n 0) as [_ | Hc]; [| lia]. cbn [orb]. eauto.
Qed.

Lemma minutes_before_length (now n : Z) : length (minutes_before now n) = Z.to_nat n.
Proof. unfold minutes_before. rewrite length_map. apply length_seqZ. Qed.

(** The generator, run step by step on the draws it makes. *)
Lemma simulate_sensor_data_run (n now : Z) (s : S) :
  simulate_sensor_data (Some n) now s =
    match date_range now n "T" with
    | Raise e => Raise e
    | Ok ts =>
        let '(idx, s1) := draws (randint1 0 3) (Z.to_nat n) s in
        match mapM (getitem sensor_ids) idx with
        | Raise e => Raise e
        | Ok ids =>
            let '(xs, s2) := draws (normal_draw (225 # 10) 2) (Z.to_nat n) s1 in
            let '(hs, s3) := draws (normal_draw 55 5) (Z.to_nat n) s2 in
            Ok (rows ts ids xs hs, s3)
        end
    end.
Proof.
  unfold simulate_sensor_data.
  change (default default_num_records (Some n)) with n. cbv zeta.
  unfold bind at 1. unfold lift at 1.
  destruct (date_range now n "T") as [ts | e] eqn:Ed; [| reflexivity].
  destruct (date_range_Ok now n ts Ed) as (Hn & _ & _ & _ & ->).
  pose proof (minutes_before_length now n) as Hts.
  unfold bind, lift, choice, randint, normal, sized, bind, lift, to_datetime.
  change (Z.of_nat (length sensor_ids)) with 3.
  change (3 <=? 0) with false. change (Qle_bool 0 2) with true.
  change (Qle_bool 0 5) with true. cbn [andb].
  destruct (Z.ltb_spec n 0) as [Hbad | _]; [lia |].
  pose proof (draws_length (randint1 0 3) (Z.to_nat n) s) as Hidx.
  destruct (draws (randint1 0 3) (Z.to_nat n) s) as [idx s1]. cbn [fst] in Hidx.
  pose proof (mapM_getitem_outcome sensor_ids idx) as Hm.
  destruct (mapM (getitem sensor_ids) idx) as [ids | e]; [| reflexivity].
  destruct Hm as [Hl _].
  pose proof (draws_length (normal_draw (225 # 10) 2) (Z.to_nat n) s1) as Hxs.
  destruct (draws (normal_draw (225 # 10) 2) (Z.to_nat n) s1) as [xs s2]. cbn [fst] in Hxs.
  pose proof (draws_length (normal_draw 55 5) (Z.to_nat n) s2) as Hhs.
  destruct (draws (normal_draw 55 5) (Z.to_nat n) s2) as [hs s3]. cbn [fst] in Hhs.
  unfold mk_DataFrame. cbv zeta.
  replace (length ids) with (length (minutes_before now n)) by congruence.
  replace (length xs) with (length (minutes_before now n)) by congruence.
  replace (length hs) with (length (minutes_before now n)) by congruence.
  rewrite Nat.eqb_refl. reflexivity.
Qed.

(** What a frame that the generator returns is made of, whatever the
    random source does. *)
Lemma simulate_sensor_data_Ok (n now : Z) (s s' : S) (df : DataFrame) :
  simulate_sensor_data (Some n) now s = Ok (df, s') ->
  0 <= n /\ in_bounds now /\ Timestamp_min <= now - (n - 1) * ns_per_minute /\
  (now + ns_per_minute <= Timestamp_max \/ Timestamp_max < n * ns_per_minute) /\
  length df = Z.to_nat n /\
  column timestamp df = minutes_before now n /\
  Forall (fun id => id ∈ sensor_ids) (column sensor_id df) /\
  column temperature df
    = fst (draws (normal_draw (225 # 10) 2) (Z.to_nat n)
             (snd (draws (randint1 0 3) (Z.to_nat n) s))) /\
  column humidity df
    = fst (draws (normal_draw 55 5) (Z.to_nat n)
             (snd (draws (normal_draw (225 # 10) 2) (Z.to_nat n)
                     (snd (draws (randint1 0 3) (Z.to_nat n) s))))) /\
  s' = snd (draws (normal_draw 55 5) (Z.to_nat n)
             (snd (draws (normal_draw (225 # 10) 2) (Z.to_nat n)
                     (snd (draws (randint1 0 3) (Z.to_nat n) s))))) /\
  mapM (getitem sensor_ids) (fst (draws (randint1 0 3) (Z.to_nat n) s))
    = Ok (column sensor_id df).
Proof.
  rewrite simulate_sensor_data_run.
  destruct (date_range now n "T") as [ts | e] eqn:Ed; [| discriminate].
  destruct (date_range_Ok now n ts Ed) as (Hn & Hb & Hold & Hend & ->).
  pose proof (minutes_before_length now n) as Hts.
  pose proof (draws_length (randint1 0 3) (Z.to_nat n) s) as Hidx.
  destruct (draws (randint1 0 3) (Z.to_nat n) s) as [idx s1]. cbn [fst snd] in *.
  pose proof (mapM_getitem_outcome sensor_ids idx) as Hm.
  destruct (mapM (getitem sensor_ids) idx) as [ids | e] eqn:Em; [| discriminate].
  destruct Hm as [Hl Hall].
  pose proof (draws_length (normal_draw (225 # 10) 2) (Z.to_nat n) s1) as Hxs.
  destruct (draws (normal_draw (225 # 10) 2) (Z.to_nat n) s1) as [xs s2]. cbn [fst snd] in *.
  pose proof (draws_length (normal_draw 55 5) (Z.to_nat n) s2) as Hhs.
  destruct (draws (normal_draw 55 5) (Z.to_nat n) s2) as [hs s3]. cbn [fst snd] in *.
  intros [= <- <-].
  destruct (rows_length (minutes_before now n) ids xs hs) as (Hlen & Hct & Hci);
    [congruence .. |].
  destruct (rows_columns (minutes_before now n) ids xs hs) as (Hcx & Hch);
    [congruence .. |].
  rewrite Hct, Hci, Hcx, Hch.
  repeat split; try assumption; try reflexivity; try congruence.
  - apply Hb.
  - apply Hb.
Qed.

(** Under the promise of [randint], the generator returns whenever the
    count is not negative and the clock leaves room for the instants. *)
Lemma simulate_sensor_data_returns (n now : Z) (s : S) :
  randint_in_range -> 0 <= n -> clock_window now n ->
  exists df s', simulate_sensor_data (Some n) now s = Ok (df, s').
Proof.
  intros Hrange Hn Hw. rewrite simulate_sensor_data_run.
  rewrite (date_range_minutes now n Hn Hw).
  pose proof (draws_Forall (fun i => 0 <= i < 3) (randint1 0 3) (Z.to_nat n) s
                (fun s0 => Hrange 0 3 s0 ltac:(lia))) as Hidx.
  destruct (draws (randint1 0 3) (Z.to_nat n) s) as [idx s1]. cbn [fst] in Hidx.
  destruct (mapM_getitem sensor_ids idx Hidx) as (ids & ->).
  destruct (draws (normal_draw (225 # 10) 2) (Z.to_nat n) s1) as [xs s2].
  destruct (draws (normal_draw 55 5) (Z.to_nat n) s2) as [hs s3]. eauto.
Qed.

(** A negative count makes the generator raise. *)
Lemma simulate_sensor_data_negative (n now : Z) (s : S) :
  n < 0 -> exists e, simulate_sensor_data (Some n) now s = Raise e.
Proof.
  intros Hn. rewrite simulate_sensor_data_run.
  destruct (date_range_negative now n Hn) as (e & ->). eauto.
Qed.

End GeneratorFacts.

(* ===================================================================== *)
(** * The summarizer *)

Lemma value_counts_cons (k : string) (l : list string) :
  value_counts (k :: l) =
    <[k := Datatypes.S (default 0%nat (value_counts l !! k))]> (value_counts l).
Proof. reflexivity. Qed.

(** A key of the counts is a value that occurs, with its number of
    occurrences. *)
Lemma value_counts_lookup (l : list string) (id : string) :
  value_counts l !! id =
    if decide (id ∈ l) then Some (length (filter (fun x => x = id) l)) else None.
Proof.
  induction l as [| k l IH].
  - rewrite decide_False by apply not_elem_of_nil. apply lookup_empty.
  - rewrite value_counts_cons.
    destruct (decide (k = id)) as [-> | Hne].
    + rewrite lookup_insert_eq, IH.
      rewrite (decide_True (P := id ∈ id :: l)) by apply list_elem_of_here.
      rewrite filter_cons_True by reflexivity. cbn [length].
      destruct (decide (id ∈ l)) as [Hin | Hnin]; [reflexivity |].
      cbn [default].
      destruct (filter (fun x => x = id) l) as [| x f] eqn:F; [reflexivity | exfalso].
      assert (Hx : x ∈ filter (fun x => x = id) l) by (rewrite F; apply list_elem_of_here).
      apply list_elem_of_filter in Hx as [-> Hx]. contradiction.
    + rewrite lookup_insert_ne by exact Hne. rewrite IH.
      rewrite filter_cons_False by exact Hne.
      destruct (decide (id ∈ l)) as [Hin | Hnin].
      * rewrite decide_True by (apply list_elem_of_further; exact Hin). reflexivity.
      * rewrite decide_False; [reflexivity |].
        intros Hin. apply elem_of_cons in Hin as [-> | Hin]; contradiction.
Qed.

Lemma dict_sum_insert (k : string) (c : nat) (m : gmap string nat) :
  dict_sum (<[k := c]> m) = (c + dict_sum (delete k m))%nat.
Proof.
  unfold dict_sum. rewrite <- insert_delete_eq.
  rewrite map_fold_insert_L; [reflexivity | intros; lia | apply lookup_delete_eq].
Qed.

Lemma dict_sum_delete (k : string) (m : gmap string nat) :
  (default 0 (m !! k) + dict_sum (delete k m))%nat = dict_sum m.
Proof.
  destruct (m !! k) as [c |] eqn:E; cbn [default].
  - unfold dict_sum. symmetry.
    apply (map_fold_delete_L (fun _ v acc => (v + acc)%nat)); [intros; lia | exact E].
  - rewrite delete_id by exact E. reflexivity.
Qed.

(** The counts add up to the length of the column. *)
Lemma dict_sum_value_counts (l : list string) :
  dict_sum (value_counts l) = length l.
Proof.
  induction l as [| k l IH]; [reflexivity |].
  rewrite value_counts_cons, dict_sum_insert. cbn [length].
  rewrite <- IH, <- (dict_sum_delete k (value_counts l)). lia.
Qed.

Lemma count_column (df : DataFrame) (id : string) :
  length (filter (fun x => x = id) (column sensor_id df)) =
  length (filter (fun r => sensor_id r = id) df).
Proof.
  unfold column. induction df as [| r df IH]; [reflexivity |]. cbn [map].
  destruct (decide (sensor_id r = id)) as [E | NE].
  - rewrite !filter_cons_True by exact E. cbn [length]. congruence.
  - rewrite !filter_cons_False by exact NE. exact IH.
Qed.

(** Step C and [to_dict], read row by row. *)
Lemma raw_data_rows (df : DataFrame) : raw_data (summarize df) = map render df.
Proof.
  unfold summarize. cbn [raw_data].
  unfold Series_dt_strftime, Series_round, column.
  induction df as [| row df IH]; [reflexivity |].
  cbn [map to_dict_records]. rewrite IH. reflexivity.
Qed.

Lemma raw_temperature_column (df : DataFrame) :
  map raw_temperature (raw_data (summarize df)) = Series_round (column temperature df) 2.
Proof.
  rewrite raw_data_rows. unfold Series_round, column. rewrite !map_map. reflexivity.
Qed.

Lemma raw_humidity_column (df : DataFrame) :
  map raw_humidity (raw_data (summarize df)) = Series_round (column humidity df) 2.
Proof.
  rewrite raw_data_rows. unfold Series_round, column. rewrite !map_map. reflexivity.
Qed.

Lemma raw_sensor_id_column (df : DataFrame) :
  map raw_sensor_id (raw_data (summarize df)) = column sensor_id df.
Proof.
  rewrite raw_data_rows. unfold column. rewrite map_map. reflexivity.
Qed.

(** Rounding a series keeps its extremes: the rounded minimum and maximum
    are elements of the rounded series and bound it. *)
Lemma Series_round_extremes (l : list Q) (lo hi : Q) :
  lo ∈ l -> hi ∈ l -> Forall (fun y => lo <= y <= hi)%Q l ->
  np_round lo 2 ∈ Series_round l 2 /\ np_round hi 2 ∈ Series_round l 2 /\
  Forall (fun y => np_round lo 2 <= y <= np_round hi 2)%Q (Series_round l 2).
Proof.
  intros Hlo Hhi Hall. unfold Series_round.
  split; [apply (list_elem_of_fmap_2 (fun x => np_round x 2)), Hlo |].
  split; [apply (list_elem_of_fmap_2 (fun x => np_round x 2)), Hhi |].
  apply Forall_fmap. eapply Forall_impl; [exact Hall |].
  intros y [H1 H2]. cbn. split; apply np_round_2_mono; assumption.
Qed.

Lemma value_counts_Permutation (l l' : list string) :
  l ≡ₚ l' -> value_counts l = value_counts l'.
Proof.
  intros Hp. apply map_eq. intros id. rewrite !value_counts_lookup.
  rewrite <- (Permutation_length (filter_Permutation (fun x => x = id) l l' Hp)).
  destruct (decide (id ∈ l)) as [Hin | Hnin].
  - rewrite decide_True by (rewrite <- Hp; exact Hin). reflexivity.
  - rewrite decide_False by (rewrite <- Hp; exact Hnin). reflexivity.
Qed.

(** A non-empty column of identifiers of the fixed list has between one
    and three distinct values. *)
Lemma value_counts_size (l : list string) :
  l <> [] -> Forall (fun id => id ∈ sensor_ids) l ->
  (1 <= size (value_counts l) <= 3)%nat.
Proof.
  intros Hne Hids. set (m := value_counts l).
  rewrite <- (size_dom (D := gset string) m). split.
  - destruct l as [| k l]; [congruence |].
    assert (Hin : k ∈ dom m).
    { apply elem_of_dom. unfold m. rewrite value_counts_lookup.
      rewrite decide_True by apply list_elem_of_here. eauto. }
    destruct (size (dom m)) eqn:Es; [| lia].
    apply size_empty_inv in Es. apply leibniz_equiv in Es.
    rewrite Es in Hin. apply not_elem_of_empty in Hin. contradiction.
  - assert (Hsub : dom m ⊆ list_to_set (C := gset string) sensor_ids).
    { intros id Hid. apply elem_of_dom in Hid as [c Hc]. unfold m in Hc.
      rewrite value_counts_lookup in Hc.
      destruct (decide (id ∈ l)) as [Hin | Hnin]; [| discriminate].
      apply elem_of_list_to_set. rewrite Forall_forall in Hids. apply Hids, Hin. }
    apply subseteq_size in Hsub. etransitivity; [exact Hsub |].
    vm_compute. lia.
Qed.

(** The seeded generator keeps the promise of [randint]. *)
Lemma lcg_in_range : @randint_in_range Z lcg.
Proof.
  intros low high s Hlt. cbn [randint1 lcg fst].
  pose proof (Z.mod_pos_bound (s / 65536) (high - low) ltac:(lia)). lia.
Qed.

(* ===================================================================== *)
(** * The handler *)

Lemma get_analytics_data_Ok {S : Type} `{RandomState S} (now : Z) (s s' : S)
  (r : AnalyticsResult) :
  get_analytics_data now s = Ok (r, s') ->
  exists df, simulate_sensor_data (Some 150) now s = Ok (df, s') /\ r = summarize df.
Proof.
  unfold get_analytics_data, bind, ret.
  destruct (simulate_sensor_data (Some 150) now s) as [[df s1] | e]; [| discriminate].
  intros [= <- <-]. exists df. split; reflexivity.
Qed.

Lemma clock_window_le (now n m : Z) : m <= n -> clock_window now n -> clock_window now m.
Proof.
  intros Hmn (Hb & He & Ho). split; [exact Hb |]. split; [exact He |].
  unfold ns_per_minute, ns_per_second in *. lia.
Qed.

Lemma minutes_before_in_bounds (now n : Z) :
  in_bounds now -> Timestamp_min <= now - (n - 1) * ns_per_minute ->
  Forall in_bounds (minutes_before now n).
Proof.
  intros [B1 B2] Ho. unfold minutes_before. apply Forall_fmap, Forall_forall.
  intros k Hk. apply elem_of_seqZ in Hk. cbn.
  unfold in_bounds, ns_per_minute, ns_per_second in *. lia.
Qed.

(** The frame the handler summarises is the generator's frame of 150
    rows: it is not empty, its sensor identifiers are among the three and
    its timestamps are the 150 instants that end at the clock. *)
Lemma handler_frame {S : Type} `{RandomState S} (now : Z) (s : S) :
  randint_in_range -> clock_window now 150 ->
  exists df s',
    simulate_sensor_data (Some 150) now s = Ok (df, s') /\
    get_analytics_data now s = Ok (summarize df, s') /\
    length df = 150%nat /\
    column timestamp df = minutes_before now 150 /\
    Forall (fun row => in_bounds (timestamp row)) df /\
    Forall (fun row => sensor_id row ∈ sensor_ids) df.
Proof.
  intros Hrange Hw.
  destruct (simulate_sensor_data_returns 150 now s Hrange ltac:(lia) Hw) as (df & s' & E).
  destruct (simulate_sensor_data_Ok 150 now s s' df E)
    as (_ & Hb & Ho & _ & Hlen & Hts & Hids & _).
  exists df, s'. split; [exact E |]. split; [| split; [| split; [| split]]].
  - unfold get_analytics_data, bind. rewrite E. reflexivity.
  - exact Hlen.
  - exact Hts.
  - pose proof (minutes_before_in_bounds now 150 Hb Ho) as Hall.
    rewrite <- Hts in Hall. unfold column in Hall. rewrite Forall_fmap in Hall. exact Hall.
  - unfold column in Hids. rewrite Forall_fmap in Hids. exact Hids.
Qed.

Lemma now0_window : clock_window now0 150.
Proof. unfold clock_window, in_bounds. vm_compute. repeat split; discriminate. Qed.

(* ===================================================================== *)
(** * Rendering and rounding, row by row *)

(** The rendering of an instant of the range spells the civil date and
    time of day of its second. *)
Lemma strftime_rendered (t : Z) :
  in_bounds t -> rendered t (strftime "%Y-%m-%d %H:%M:%S" t).
Proof.
  intros Ht. exists (to_datetime_struct t).
  pose proof (to_datetime_struct_bounds t Ht) as Hb. cbv zeta in Hb.
  destruct Hb as (Hy & Hm & Hd & HH & HM & HS).
  split; [reflexivity |].
  repeat (split; [assumption |]).
  unfold seconds_of_datetime, to_datetime_struct.
  rewrite days_of_seconds. set (q := t / ns_per_second).
  pose proof (days_from_civil_from_days (q / 86400)) as R.
  destruct (civil_from_days (q / 86400)) as [[y m] d].
  cbn [year month day hour minute second]. rewrite R.
  Z.div_mod_to_equations. lia.
Qed.

(** [np.round(x, 2)] is a whole number of hundredths nearest to the
    product of [x] by 100, divided by 100. *)
Lemma np_round_2_hundredths (x : Q) : rounded_to_hundredths x (np_round x 2).
Proof.
  exists (rint (fmul x 100)). pose proof (rint_bounds (fmul x 100)) as [B1 B2].
  split; [apply Qabs_Qle_condition; split; lra |].
  split; [| apply np_round_2].
  intros E. apply rint_tie_even. revert E.
  apply Qabs_case; intros _ E; [right | left]; lra.
Qed.

Lemma frame_halves_readings :
  Forall (fun row => in_bounds (timestamp row) /\
                     (Qabs (temperature row) <= reading_bound)%Q /\
                     (Qabs (humidity row) <= reading_bound)%Q) frame_halves.
Proof.
  unfold frame_halves.
  repeat (constructor;
          [split; [unfold in_bounds; vm_compute; split; discriminate
                  | split; vm_compute; discriminate] |]).
  constructor.
Qed.

Lemma frame_fine_sensor_ids : Forall (fun row => sensor_id row ∈ sensor_ids) frame_fine.
Proof. unfold frame_fine, sensor_ids. repeat constructor. Qed.

Lemma frame_ties_bounded : bounded_readings (column temperature frame_ties).
Proof.
  split; [vm_compute; discriminate |].
  repeat (constructor; [vm_compute; discriminate |]). constructor.
Qed.

Lemma frame_precise_bounded :
  bounded_readings (column temperature frame_precise) /\
  bounded_readings (column humidity frame_precise).
Proof.
  split; (split; [vm_compute; discriminate |]);
    repeat (constructor; [vm_compute; discriminate |]); constructor.
Qed.

(** The bounds of the readings extend to what lies between them. *)
Lemma bounded_between (l : list Q) (lo hi x : Q) :
  bounded_readings l -> lo ∈ l -> hi ∈ l -> (lo <= x <= hi)%Q ->
  (Qabs x <= 1000000)%Q.
Proof.
  intros [_ HF] Hlo Hhi [H1 H2]. rewrite Forall_forall in HF.
  pose proof (HF lo Hlo) as Blo. pose proof (HF hi Hhi) as Bhi.
  unfold reading_bound in *.
  apply Qabs_Qle_condition in Blo, Bhi. apply Qabs_Qle_condition. split; lra.
Qed.

(** The mean of a series of bounded readings, as [float64] computes it:
    it lies within [mean_error] of the exact mean, which lies between the
    least and the greatest reading. *)
Lemma Series_aggregates (l : list Q) :
  l <> [] -> bounded_readings l ->
  exists lo m hi : Q,
    Series_min l = Finite lo /\ Series_mean l = Finite m /\ Series_max l = Finite hi /\
    lo ∈ l /\ hi ∈ l /\ Forall (fun y => lo <= y <= hi)%Q l /\
    (Qabs (m - Qsum l / inject_Z (Z.of_nat (length l))) <= mean_error)%Q /\
    (lo - mean_error <= m <= hi + mean_error)%Q /\
    (Qabs lo <= 1000001)%Q /\ (Qabs m <= 1000001)%Q /\ (Qabs hi <= 1000001)%Q.
Proof.
  intros Hne Hb.
  destruct (Series_extremes l Hne) as (lo & hi & Emin & Emax & Hlo & Hhi & Hall).
  destruct (Series_mean_accuracy l Hne Hb) as (m & Emean & Hm).
  pose proof (exact_mean_between l lo hi Hne Hall) as Hmu.
  exists lo, m, hi. repeat (split; [assumption |]).
  assert (Hlohi : (lo <= hi)%Q).
  { rewrite Forall_forall in Hall. apply (Hall lo Hlo). }
  pose proof (bounded_between l lo hi lo Hb Hlo Hhi ltac:(split; lra)) as Blo.
  pose proof (bounded_between l lo hi hi Hb Hlo Hhi ltac:(split; lra)) as Bhi.
  pose proof (bounded_between l lo hi _ Hb Hlo Hhi Hmu) as Bmu.
  set (mu := (Qsum l / inject_Z (Z.of_nat (length l)))%Q) in *.
  unfold mean_error in *.
  apply Qabs_Qle_condition in Hm, Blo, Bhi, Bmu.
  split; [split; lra |].
  repeat split; apply Qabs_Qle_condition; split; lra.
Qed.

(* ===================================================================== *)
(** * The properties of the specification *)

(** C1 (as amended): on the empty frame the summarizer returns, with a
    zero count, [NaN] for the four aggregates, an empty dictionary and an
    empty row list. *)
Theorem summarize_empty :
  summarize [] =
    {| total_records := 0; average_temp := NaN; max_temp := NaN; min_temp := NaN;
       average_humidity := NaN; records_per_sensor := ∅; raw_data := [] |}.
Proof. reflexivity. Qed.

(** C1 fails as stated: steps B to D raise nowhere, so [summarize] is a
    total function with no failure outcome, and the result it returns for
    the empty frame carries the [NaN] averages the claim excludes. *)
Lemma summarize_empty_nan_averages :
  total_records (summarize []) = 0%nat /\
  average_temp (summarize []) = NaN /\
  average_humidity (summarize []) = NaN /\
  max_temp (summarize []) = NaN /\
  min_temp (summarize []) = NaN.
Proof. repeat split; reflexivity. Qed.

(** C2 (as amended): a negative count makes the generator fail, whatever
    the clock and the random source; the count zero makes it return the
    empty frame without drawing, the clock being an instant of the range
    not in its last minute. *)
Theorem generator_nonpositive_count {S : Type} `{RandomState S}
  (count now : Z) (s : S) :
  count <= 0 ->
  (count < 0 -> exists e, simulate_sensor_data (Some count) now s = Raise e) /\
  (count = 0 -> in_bounds now -> now + ns_per_minute <= Timestamp_max ->
   simulate_sensor_data (Some count) now s = Ok ([], s)).
Proof.
  intros _. split.
  - apply simulate_sensor_data_negative.
  - intros -> Hb He. rewrite simulate_sensor_data_run.
    rewrite (date_range_minutes now 0 ltac:(lia)); [reflexivity |].
    split; [exact Hb |]. split; [exact He |].
    destruct Hb. unfold ns_per_minute, ns_per_second. lia.
Qed.

Lemma generator_nonpositive_count_witness :
  -3 <= 0 /\
  (-3 < 0 -> exists e, simulate_sensor_data (Some (-3)) now0 42 = Raise e) /\
  (-3 = 0 -> in_bounds now0 -> now0 + ns_per_minute <= Timestamp_max ->
   simulate_sensor_data (Some (-3)) now0 42 = Ok ([], 42)).
Proof. split; [lia | apply (generator_nonpositive_count (-3) now0 42); lia]. Defined.

(** C2 fails as stated: with the count zero the generator returns. *)
Lemma generator_zero_returns :
  simulate_sensor_data (Some 0) now0 42 = Ok ([], 42).
Proof. reflexivity. Qed.






(** C5: [records_per_sensor] has a key for each sensor identifier that
    occurs in the input and for no other, its value is the number of
    readings with that identifier, the values add up to [total_records],
    and every key is one of the three sensor identifiers.  The readings
    are the generator's: their identifiers are among the three. *)
Theorem records_per_sensor_counts (df : DataFrame) :
  Forall (fun row => sensor_id row ∈ sensor_ids) df ->
  (forall id : string,
     records_per_sensor (summarize df) !! id =
       if decide (id ∈ column sensor_id df)
       then Some (length (filter (fun row => sensor_id row = id) df))
       else None) /\
  dict_sum (records_per_sensor (summarize df)) = total_records (summarize df) /\
  (forall id : string,
     is_Some (records_per_sensor (summarize df) !! id) -> id ∈ sensor_ids).
Proof.
  intros Hids. cbn [summarize records_per_sensor total_records].
  split; [| split].
  - intros id. rewrite value_counts_lookup, count_column. reflexivity.
  - rewrite dict_sum_value_counts. unfold column. apply length_map.
  - intros id [c Hc]. rewrite value_counts_lookup in Hc.
    destruct (decide (id ∈ column sensor_id df)) as [Hin | Hnin]; [| discriminate].
    unfold column in Hin. apply list_elem_of_fmap in Hin as (row & -> & Hrow).
    rewrite Forall_forall in Hids. apply Hids, Hrow.
Qed.

Lemma records_per_sensor_counts_witness :
  Forall (fun row => sensor_id row ∈ sensor_ids) frame_fine /\
  (forall id : string,
     records_per_sensor (summarize frame_fine) !! id =
       if decide (id ∈ column sensor_id frame_fine)
       then Some (length (filter (fun row => sensor_id row = id) frame_fine))
       else None) /\
  dict_sum (records_per_sensor (summarize frame_fine))
    = total_records (summarize frame_fine) /\
  (forall id : string,
     is_Some (records_per_sensor (summarize frame_fine) !! id) -> id ∈ sensor_ids).
Proof.
  split; [exact frame_fine_sensor_ids |].
  apply (records_per_sensor_counts frame_fine). exact frame_fine_sensor_ids.
Defined.



(** C7: the four aggregates are computed from the readings at full
    precision and rounded afterwards.  On a non-empty frame of bounded
    readings [min_temp] and [max_temp] are the roundings of the least and
    of the greatest temperature, and [average_temp] and [average_humidity]
    the roundings of values within [mean_error] of the exact means of the
    temperatures and of the humidities.  On the frame [frame_precise] this
    is not what the rows of [raw_data], already rounded, would give:
    the averages are 22.0 and 55.0, where the means of the listed values
    round to 22.01 and 55.01. *)
Theorem aggregates_from_full_precision :
  (forall df : DataFrame,
     df <> [] ->
     bounded_readings (column temperature df) ->
     bounded_readings (column humidity df) ->
     exists lo hi mt mh : Q,
       lo ∈ column temperature df /\ hi ∈ column temperature df /\
       Forall (fun t => lo <= t <= hi)%Q (column temperature df) /\
       (Qabs (mt - Qsum (column temperature df) / inject_Z (Z.of_nat (length df)))
          <= mean_error)%Q /\
       (Qabs (mh - Qsum (column humidity df) / inject_Z (Z.of_nat (length df)))
          <= mean_error)%Q /\
       min_temp (summarize df) = Finite (np_round lo 2) /\
       max_temp (summarize df) = Finite (np_round hi 2) /\
       average_temp (summarize df) = Finite (np_round mt 2) /\
       average_humidity (summarize df) = Finite (np_round mh 2)) /\
  average_temp (summarize frame_precise) = Finite 22 /\
  average_humidity (summarize frame_precise) = Finite 55 /\
  min_temp (summarize frame_precise) = Finite 22 /\
  max_temp (summarize frame_precise) = Finite (6195264237401539 # 281474976710656) /\
  round (Series_mean (map raw_temperature (raw_data (summarize frame_precise)))) 2
    = Finite (6195264237401539 # 281474976710656) /\
  round (Series_mean (map raw_humidity (raw_data (summarize frame_precise)))) 2
    = Finite (7741969234426593 # 140737488355328).
Proof.
  split; [| repeat split; vm_compute; reflexivity].
  intros df Hne Hbt Hbh.
  assert (Hnt : column temperature df <> [])
    by (unfold column; destruct df; [congruence | discriminate]).
  assert (Hnh : column humidity df <> [])
    by (unfold column; destruct df; [congruence | discriminate]).
  destruct (Series_aggregates (column temperature df) Hnt Hbt) as
    (lo & mt & hi & Emin & Emean & Emax & Hlo & Hhi & Hall & Hmt & _).
  destruct (Series_aggregates (column humidity df) Hnh Hbh) as
    (_ & mh & _ & _ & Emeanh & _ & _ & _ & _ & Hmh & _).
  exists lo, hi, mt, mh.
  unfold column in Hmt, Hmh. rewrite length_map in Hmt, Hmh. fold (column temperature df) in Hmt.
  fold (column humidity df) in Hmh.
  cbn [summarize min_temp average_temp max_temp average_humidity].
  rewrite Emin, Emean, Emax, Emeanh. cbn [round].
  repeat (split; [assumption |]). repeat split.
Qed.

Lemma aggregates_from_full_precision_witness :
  frame_precise <> [] /\
  bounded_readings (column temperature frame_precise) /\
  bounded_readings (column humidity frame_precise) /\
  exists lo hi mt mh : Q,
    lo ∈ column temperature frame_precise /\ hi ∈ column temperature frame_precise /\
    Forall (fun t => lo <= t <= hi)%Q (column temperature frame_precise) /\
    (Qabs (mt - Qsum (column temperature frame_precise)
                / inject_Z (Z.of_nat (length frame_precise))) <= mean_error)%Q /\
    (Qabs (mh - Qsum (column humidity frame_precise)
                / inject_Z (Z.of_nat (length frame_precise))) <= mean_error)%Q /\
    min_temp (summarize frame_precise) = Finite (np_round lo 2) /\
    max_temp (summarize frame_precise) = Finite (np_round hi 2) /\
    average_temp (summarize frame_precise) = Finite (np_round mt 2) /\
    average_humidity (summarize frame_precise) = Finite (np_round mh 2).
Proof.
  split; [discriminate |].
  split; [exact (proj1 frame_precise_bounded) |].
  split; [exact (proj2 frame_precise_bounded) |].
  apply (proj1 aggregates_from_full_precision frame_precise);
    [discriminate | exact (proj1 frame_precise_bounded) | exact (proj2 frame_precise_bounded)].
Defined.

(** C8: the scenario with temperatures 20, 22, 24, humidities 50, 55, 60
    and sensor identifiers alpha, alpha, beta. *)
Theorem concrete_scenario (alpha beta : string) (t0 t1 t2 : Z) :
  alpha <> beta ->
  let r := summarize
    [ {| timestamp := t0; sensor_id := alpha; temperature := 20; humidity := 50 |};
      {| timestamp := t1; sensor_id := alpha; temperature := 22; humidity := 55 |};
      {| timestamp := t2; sensor_id := beta; temperature := 24; humidity := 60 |} ] in
  total_records r = 3%nat /\
  average_temp r = Finite 22 /\
  max_temp r = Finite 24 /\
  min_temp r = Finite 20 /\
  average_humidity r = Finite 55 /\
  records_per_sensor r = <[alpha := 2%nat]> (<[beta := 1%nat]> ∅).
Proof.
  intros Hne r. subst r.
  cbn [summarize total_records average_temp max_temp min_temp average_humidity
       records_per_sensor column map temperature humidity sensor_id].
  split; [reflexivity |].
  do 4 (split; [vm_compute; reflexivity |]).
  rewrite !value_counts_cons. change (value_counts []) with (∅ : gmap string nat).
  rewrite (lookup_insert_eq _ alpha). cbn [default].
  rewrite (lookup_insert_ne _ beta alpha) by congruence.
  rewrite !lookup_empty. cbn [default].
  apply insert_insert_eq.
Qed.

Lemma concrete_scenario_witness :
  "sensor_alpha"%string <> "sensor_beta"%string /\
  let r := summarize
    [ {| timestamp := now0 - 2 * ns_per_minute; sensor_id := "sensor_alpha";
         temperature := 20; humidity := 50 |};
      {| timestamp := now0 - ns_per_minute; sensor_id := "sensor_alpha";
         temperature := 22; humidity := 55 |};
      {| timestamp := now0; sensor_id := "sensor_beta";
         temperature := 24; humidity := 60 |} ] in
  total_records r = 3%nat /\
  average_temp r = Finite 22 /\
  max_temp r = Finite 24 /\
  min_temp r = Finite 20 /\
  average_humidity r = Finite 55 /\
  records_per_sensor r = <["sensor_alpha"%string := 2%nat]> (<["sensor_beta"%string := 1%nat]> ∅).
Proof.
  split; [discriminate |].
  apply (concrete_scenario "sensor_alpha" "sensor_beta"); discriminate.
Defined.

(** C9: for a positive count, every reading of a frame that the generator
    returns carries one of the three sensor identifiers, whatever the
    clock and whatever the random source draws. *)
Theorem generator_sensor_ids {S : Type} `{RandomState S}
  (count now : Z) (s s' : S) (df : DataFrame) :
  0 < count ->
  simulate_sensor_data (Some count) now s = Ok (df, s') ->
  Forall (fun r => sensor_id r = "sensor_alpha"%string \/
                   sensor_id r = "sensor_beta"%string \/
                   sensor_id r = "sensor_gamma"%string) df.
Proof.
  intros _ E.
  destruct (simulate_sensor_data_Ok count now s s' df E)
    as (_ & _ & _ & _ & _ & _ & Hids & _).
  unfold column in Hids. rewrite Forall_fmap in Hids.
  eapply Forall_impl; [exact Hids |].
  intros r Hr. cbn in Hr. unfold sensor_ids in Hr.
  repeat (apply elem_of_cons in Hr as [Hr | Hr]; [tauto |]).
  apply elem_of_nil in Hr. contradiction.
Qed.

Lemma generator_sensor_ids_witness :
  0 < 3 /\
  simulate_sensor_data (Some 3) now0 42 =
    Ok ([ {| timestamp := now0 - 2 * ns_per_minute; sensor_id := "sensor_alpha";
             temperature := 26; humidity := 125 # 2 |};
          {| timestamp := now0 - ns_per_minute; sensor_id := "sensor_beta";
             temperature := 22; humidity := 85 # 2 |};
          {| timestamp := now0; sensor_id := "sensor_gamma";
             temperature := 39 # 2; humidity := 40 |} ],
        1314989459) /\
  Forall (fun r => sensor_id r = "sensor_alpha"%string \/
                   sensor_id r = "sensor_beta"%string \/
                   sensor_id r = "sensor_gamma"%string)
    [ {| timestamp := now0 - 2 * ns_per_minute; sensor_id := "sensor_alpha";
         temperature := 26; humidity := 125 # 2 |};
      {| timestamp := now0 - ns_per_minute; sensor_id := "sensor_beta";
         temperature := 22; humidity := 85 # 2 |};
      {| timestamp := now0; sensor_id := "sensor_gamma";
         temperature := 39 # 2; humidity := 40 |} ].
Proof.
  split; [lia |]. split; [vm_compute; reflexivity |].
  apply (generator_sensor_ids 3 now0 42 1314989459); [lia | vm_compute; reflexivity].
Defined.

(** C10: the handler asks the generator for 150 records, whatever the
    generator's own default of 100: every result the handler returns has
    [total_records = 150] and 150 entries in [raw_data], and every frame
    the generator returns when called without a count has 100 rows.  When
    [randint] draws in its range and the clock leaves room for 150
    instants, the handler and the generator do return. *)
Theorem endpoint_record_count {S : Type} `{RandomState S} (now : Z) (s : S) :
  (forall (r : AnalyticsResult) (s' : S),
     get_analytics_data now s = Ok (r, s') ->
     total_records r = 150%nat /\ length (raw_data r) = 150%nat) /\
  (forall (df : DataFrame) (s' : S),
     simulate_sensor_data None now s = Ok (df, s') -> length df = 100%nat) /\
  (randint_in_range -> clock_window now 150 ->
   (exists r s',
      get_analytics_data now s = Ok (r, s') /\
      total_records r = 150%nat /\ length (raw_data r) = 150%nat) /\
   (exists df s',
      simulate_sensor_data None now s = Ok (df, s') /\ length df = 100%nat)).
Proof.
  assert (H150 : forall (r : AnalyticsResult) (s' : S),
            get_analytics_data now s = Ok (r, s') ->
            total_records r = 150%nat /\ length (raw_data r) = 150%nat).
  { intros r s' E. destruct (get_analytics_data_Ok now s s' r E) as (df & Ed & ->).
    destruct (simulate_sensor_data_Ok 150 now s s' df Ed)
      as (_ & _ & _ & _ & Hlen & _).
    rewrite raw_data_rows, length_map. cbn [summarize total_records].
    split; rewrite Hlen; reflexivity. }
  assert (H100 : forall (df : DataFrame) (s' : S),
            simulate_sensor_data None now s = Ok (df, s') -> length df = 100%nat).
  { intros df s' E.
    change (simulate_sensor_data None now s)
      with (simulate_sensor_data (Some 100) now s) in E.
    destruct (simulate_sensor_data_Ok 100 now s s' df E)
      as (_ & _ & _ & _ & Hlen & _).
    rewrite Hlen. reflexivity. }
  split; [exact H150 |]. split; [exact H100 |].
  intros Hrange Hw. split.
  - destruct (handler_frame now s Hrange Hw) as (df & s' & _ & E & _).
    exists (summarize df), s'. split; [exact E | apply (H150 _ s'), E].
  - destruct (simulate_sensor_data_returns 100 now s Hrange ltac:(lia)
                (clock_window_le now 150 100 ltac:(lia) Hw)) as (df & s' & E).
    exists df, s'. split; [exact E | apply (H100 df s'), E].
Qed.

Lemma endpoint_record_count_witness :
  @randint_in_range Z lcg /\ clock_window now0 150 /\
  (exists r s',
     get_analytics_data now0 42 = Ok (r, s') /\
     total_records r = 150%nat /\ length (raw_data r) = 150%nat) /\
  (exists df s',
     simulate_sensor_data None now0 42 = Ok (df, s') /\ length df = 100%nat).
Proof.
  split; [exact lcg_in_range |]. split; [exact now0_window |].
  apply (proj2 (proj2 (endpoint_record_count now0 42)) lcg_in_range now0_window).
Defined.

(* ===================================================================== *)
(** * Further properties of the generator *)

(** X1: under the promise of [randint], for a clock that is an instant of
    the range and a count whose minutes fit in 63 bits, the generator
    returns exactly when the count is not negative, the instant one minute
    after the clock fits in 64 bits and the oldest instant is in the
    range. *)
Theorem generator_returns_iff {S : Type} `{RandomState S}
  (count now : Z) (s : S) :
  randint_in_range -> in_bounds now -> count * ns_per_minute <= Timestamp_max ->
  ((exists df s', simulate_sensor_data (Some count) now s = Ok (df, s')) <->
   0 <= count /\ now + ns_per_minute <= Timestamp_max /\
   Timestamp_min <= now - (count - 1) * ns_per_minute).
Proof.
  intros Hrange Hb Hc. split.
  - intros (df & s' & E).
    destruct (simulate_sensor_data_Ok count now s s' df E)
      as (Hn & _ & Ho & [He | He] & _); [| lia].
    repeat split; assumption.
  - intros (Hn & He & Ho).
    apply simulate_sensor_data_returns; [exact Hrange | exact Hn |].
    repeat split; try assumption; apply Hb.
Qed.

Lemma generator_returns_iff_witness :
  @randint_in_range Z lcg /\ in_bounds now0 /\ 3 * ns_per_minute <= Timestamp_max /\
  ((exists df s', simulate_sensor_data (Some 3) now0 42 = Ok (df, s')) <->
   0 <= 3 /\ now0 + ns_per_minute <= Timestamp_max /\
   Timestamp_min <= now0 - (3 - 1) * ns_per_minute).
Proof.
  assert (Hb : in_bounds now0) by apply now0_window.
  assert (Hc : 3 * ns_per_minute <= Timestamp_max) by (vm_compute; discriminate).
  split; [exact lcg_in_range |]. split; [exact Hb |]. split; [exact Hc |].
  apply (generator_returns_iff 3 now0 42 lcg_in_range Hb Hc).
Defined.

(** X2: whatever the random source does, and with the default count of
    100 when none is given, a frame that the generator returns has the
    requested number of rows, the minute-spaced timestamps that end at the
    clock, all of them instants of the range, and sensor identifiers of
    the fixed list only. *)
Theorem generator_returned_frame {S : Type} `{RandomState S}
  (num_records : option Z) (now : Z) (s s' : S) (df : DataFrame) :
  simulate_sensor_data num_records now s = Ok (df, s') ->
  let n := default default_num_records num_records in
  0 <= n /\ length df = Z.to_nat n /\
  column timestamp df = map (fun k => now - (n - 1 - k) * ns_per_minute) (seqZ 0 n) /\
  Forall (fun row => in_bounds (timestamp row)) df /\
  Forall (fun row => sensor_id row ∈ sensor_ids) df.
Proof.
  intros E n.
  change (simulate_sensor_data num_records now s)
    with (simulate_sensor_data (Some n) now s) in E.
  destruct (simulate_sensor_data_Ok n now s s' df E)
    as (Hn & Hb & Ho & _ & Hlen & Hts & Hids & _).
  split; [exact Hn |]. split; [exact Hlen |]. split; [exact Hts |]. split.
  - pose proof (minutes_before_in_bounds now n Hb Ho) as Hall.
    rewrite <- Hts in Hall. unfold column in Hall. rewrite Forall_fmap in Hall. exact Hall.
  - unfold column in Hids. rewrite Forall_fmap in Hids. exact Hids.
Qed.

Lemma generator_returned_frame_witness :
  simulate_sensor_data (Some 2) now0 42 =
    Ok ([ {| timestamp := now0 - ns_per_minute; sensor_id := "sensor_alpha";
             temperature := 41 # 2; humidity := 215 # 4 |};
          {| timestamp := now0; sensor_id := "sensor_beta";
             temperature := 26; humidity := 95 # 2 |} ], 71666532) /\
  let df :=
    [ {| timestamp := now0 - ns_per_minute; sensor_id := "sensor_alpha";
         temperature := 41 # 2; humidity := 215 # 4 |};
      {| timestamp := now0; sensor_id := "sensor_beta";
         temperature := 26; humidity := 95 # 2 |} ] in
  0 <= 2 /\ length df = Z.to_nat 2 /\
  column timestamp df = map (fun k => now0 - (2 - 1 - k) * ns_per_minute) (seqZ 0 2) /\
  Forall (fun row => in_bounds (timestamp row)) df /\
  Forall (fun row => sensor_id row ∈ sensor_ids) df.
Proof.
  split; [vm_compute; reflexivity |].
  apply (generator_returned_frame (Some 2) now0 42 71666532). vm_compute. reflexivity.
Defined.

(** X3: two calls of the generator from the same generator state that
    both return differ in their timestamps only, which are shifted by the
    difference of the clocks; they leave the generator in the same
    state. *)
Theorem generator_clock_shift {S : Type} `{RandomState S}
  (num_records : option Z) (now1 now2 : Z) (s s1 s2 : S) (df1 df2 : DataFrame) :
  simulate_sensor_data num_records now1 s = Ok (df1, s1) ->
  simulate_sensor_data num_records now2 s = Ok (df2, s2) ->
  s2 = s1 /\
  column sensor_id df2 = column sensor_id df1 /\
  column temperature df2 = column temperature df1 /\
  column humidity df2 = column humidity df1 /\
  column timestamp df2 = map (Z.add (now2 - now1)) (column timestamp df1).
Proof.
  set (n := default default_num_records num_records).
  change (simulate_sensor_data num_records now1 s)
    with (simulate_sensor_data (Some n) now1 s).
  change (simulate_sensor_data num_records now2 s)
    with (simulate_sensor_data (Some n) now2 s).
  intros E1 E2.
  destruct (simulate_sensor_data_Ok n now1 s s1 df1 E1)
    as (_ & _ & _ & _ & _ & Ht1 & _ & Hx1 & Hh1 & Hs1 & Hi1).
  destruct (simulate_sensor_data_Ok n now2 s s2 df2 E2)
    as (_ & _ & _ & _ & _ & Ht2 & _ & Hx2 & Hh2 & Hs2 & Hi2).
  split; [congruence |]. split; [congruence |].
  split; [congruence |]. split; [congruence |].
  rewrite Ht2, Ht1. unfold minutes_before. rewrite map_map.
  apply map_ext. intros k. lia.
Qed.

Lemma generator_clock_shift_witness :
  simulate_sensor_data (Some 2) now0 42 =
    Ok ([ {| timestamp := now0 - ns_per_minute; sensor_id := "sensor_alpha";
             temperature := 41 # 2; humidity := 215 # 4 |};
          {| timestamp := now0; sensor_id := "sensor_beta";
             temperature := 26; humidity := 95 # 2 |} ], 71666532) /\
  simulate_sensor_data (Some 2) (now0 + ns_per_hour) 42 =
    Ok ([ {| timestamp := now0 + ns_per_hour - ns_per_minute; sensor_id := "sensor_alpha";
             temperature := 41 # 2; humidity := 215 # 4 |};
          {| timestamp := now0 + ns_per_hour; sensor_id := "sensor_beta";
             temperature := 26; humidity := 95 # 2 |} ], 71666532) /\
  71666532 = 71666532 /\
  ["sensor_alpha"; "sensor_beta"]%string = ["sensor_alpha"; "sensor_beta"]%string /\
  [41 # 2; 26]%Q = [41 # 2; 26]%Q /\
  [215 # 4; 95 # 2]%Q = [215 # 4; 95 # 2]%Q /\
  [now0 + ns_per_hour - ns_per_minute; now0 + ns_per_hour]
    = map (Z.add (now0 + ns_per_hour - now0)) [now0 - ns_per_minute; now0].
Proof.
  split; [vm_compute; reflexivity |]. split; [vm_compute; reflexivity |].
  apply (generator_clock_shift (Some 2) now0 (now0 + ns_per_hour) 42 71666532 71666532
           [ {| timestamp := now0 - ns_per_minute; sensor_id := "sensor_alpha";
                temperature := 41 # 2; humidity := 215 # 4 |};
             {| timestamp := now0; sensor_id := "sensor_beta";
                temperature := 26; humidity := 95 # 2 |} ]
           [ {| timestamp := now0 + ns_per_hour - ns_per_minute; sensor_id := "sensor_alpha";
                temperature := 41 # 2; humidity := 215 # 4 |};
             {| timestamp := now0 + ns_per_hour; sensor_id := "sensor_beta";
                temperature := 26; humidity := 95 # 2 |} ]);
    vm_compute; reflexivity.
Defined.

(* ===================================================================== *)
(** * Further properties of the summarizer *)

Section SummarizerMore.
Local Open Scope Q_scope.

(** X5: on a non-empty frame [min_temp] and [max_temp] are the smallest
    and the largest temperature listed in [raw_data]. *)
Theorem extremes_listed_in_raw_data (df : DataFrame) :
  df <> [] ->
  exists lo hi : Q,
    min_temp (summarize df) = Finite lo /\
    max_temp (summarize df) = Finite hi /\
    lo ∈ map raw_temperature (raw_data (summarize df)) /\
    hi ∈ map raw_temperature (raw_data (summarize df)) /\
    Forall (fun t => lo <= t <= hi) (map raw_temperature (raw_data (summarize df))).
Proof.
  intros Hne. rewrite raw_temperature_column.
  destruct (Series_extremes (column temperature df)) as
    (lo & hi & Emin & Emax & Hlo & Hhi & Hall).
  { unfold column. destruct df; [congruence | discriminate]. }
  exists (np_round lo 2), (np_round hi 2).
  cbn [summarize min_temp max_temp]. rewrite Emin, Emax. cbn [round].
  split; [reflexivity |]. split; [reflexivity |].
  apply Series_round_extremes; assumption.
Qed.

Lemma extremes_listed_in_raw_data_witness :
  frame_fine <> [] /\
  exists lo hi : Q,
    min_temp (summarize frame_fine) = Finite lo /\
    max_temp (summarize frame_fine) = Finite hi /\
    lo ∈ map raw_temperature (raw_data (summarize frame_fine)) /\
    hi ∈ map raw_temperature (raw_data (summarize frame_fine)) /\
    Forall (fun t => lo <= t <= hi)
           (map raw_temperature (raw_data (summarize frame_fine))).
Proof.
  split; [discriminate | apply (extremes_listed_in_raw_data frame_fine); discriminate].
Defined.

(** [np.round(x, 2)] moves a bounded value by [round_error] at most. *)
Lemma np_round_2_error (x : Q) :
  Qabs x <= 1000001 -> Qabs (np_round x 2 - x) <= round_error.
Proof.
  intros Hx. rewrite np_round_2. unfold fdiv, fmul, round_error.
  pose proof (rnd64_error (x * 100)) as Rt.
  pose proof (rint_bounds (rnd64 (x * 100))) as [B1 B2].
  set (t := rnd64 (x * 100)) in *. set (k := inject_Z (rint t)) in *.
  pose proof (rnd64_error (k / 100)) as Rr.
  assert (Ey : k / 100 * 100 == k) by (field; discriminate).
  set (y := k / 100) in *.
  pose proof u64_val as Hu. destruct eta64_small as [E0 E1].
  assert (Ax : Qabs (x * 100) <= 100000100).
  { apply Qabs_Qle_condition in Hx. apply Qabs_Qle_condition. split; lra. }
  set (u := u64) in *. set (e := eta64) in *.
  set (ax := Qabs (x * 100)) in *.
  assert (Ux : u * ax <= u * 100000100) by nra.
  apply Qabs_Qle_condition in Rt, Hx.
  assert (Ay : Qabs y <= 1000002).
  { apply Qabs_Qle_condition. split; lra. }
  set (ay := Qabs y) in *.
  assert (Uy : u * ay <= u * 1000002) by nra.
  apply Qabs_Qle_condition in Rr. apply Qabs_Qle_condition.
  set (r := rnd64 y) in *. split; lra.
Qed.

(** X7: every temperature and humidity listed in [raw_data] is within
    [round_error], half a hundredth and a billionth, of the value of the
    reading at the same position, the readings being a million at most in
    magnitude. *)
Theorem raw_data_rounding (df : DataFrame) :
  Forall (fun row => Qabs (temperature row) <= reading_bound /\
                     Qabs (humidity row) <= reading_bound) df ->
  Forall2 (fun row raw =>
             Qabs (raw_temperature raw - temperature row) <= round_error /\
             Qabs (raw_humidity raw - humidity row) <= round_error)
          df (raw_data (summarize df)).
Proof.
  intros Hb. rewrite raw_data_rows.
  induction Hb as [| row df [Ht Hh] _ IH]; cbn [map]; constructor; [| exact IH].
  cbn [render raw_temperature raw_humidity]. unfold reading_bound in *.
  split; apply np_round_2_error; lra.
Qed.

Lemma raw_data_rounding_witness :
  Forall (fun row => Qabs (temperature row) <= reading_bound /\
                     Qabs (humidity row) <= reading_bound) frame_halves /\
  Forall2 (fun row raw =>
             Qabs (raw_temperature raw - temperature row) <= round_error /\
             Qabs (raw_humidity raw - humidity row) <= round_error)
          frame_halves (raw_data (summarize frame_halves)).
Proof.
  assert (H : Forall (fun row => Qabs (temperature row) <= reading_bound /\
                                 Qabs (humidity row) <= reading_bound) frame_halves).
  { repeat (constructor; [split; vm_compute; discriminate |]). constructor. }
  split; [exact H | apply (raw_data_rounding frame_halves H)].
Defined.

(** X8: on a non-empty frame of bounded readings the two averages are
    within [round_error + mean_error] of the exact means of the
    temperatures and of the humidities. *)
Theorem averages_rounding (df : DataFrame) :
  df <> [] ->
  bounded_readings (column temperature df) ->
  bounded_readings (column humidity df) ->
  exists at_ ah : Q,
    average_temp (summarize df) = Finite at_ /\
    average_humidity (summarize df) = Finite ah /\
    Qabs (at_ - Qsum (column temperature df) / inject_Z (Z.of_nat (length df)))
      <= round_error + mean_error /\
    Qabs (ah - Qsum (column humidity df) / inject_Z (Z.of_nat (length df)))
      <= round_error + mean_error.
Proof.
  intros Hne Hbt Hbh.
  assert (Hnt : column temperature df <> [])
    by (unfold column; destruct df; [congruence | discriminate]).
  assert (Hnh : column humidity df <> [])
    by (unfold column; destruct df; [congruence | discriminate]).
  destruct (Series_aggregates (column temperature df) Hnt Hbt) as
    (_ & mt & _ & _ & Emt & _ & _ & _ & _ & Hmt & _ & _ & Bmt & _).
  destruct (Series_aggregates (column humidity df) Hnh Hbh) as
    (_ & mh & _ & _ & Emh & _ & _ & _ & _ & Hmh & _ & _ & Bmh & _).
  unfold column in Hmt, Hmh. rewrite length_map in Hmt, Hmh.
  fold (column temperature df) in Hmt. fold (column humidity df) in Hmh.
  exists (np_round mt 2), (np_round mh 2).
  cbn [summarize average_temp average_humidity]. rewrite Emt, Emh. cbn [round].
  split; [reflexivity |]. split; [reflexivity |].
  pose proof (np_round_2_error mt Bmt) as Rt. pose proof (np_round_2_error mh Bmh) as Rh.
  apply Qabs_Qle_condition in Rt, Rh, Hmt, Hmh.
  split; apply Qabs_Qle_condition; split; lra.
Qed.

Lemma averages_rounding_witness :
  frame_precise <> [] /\
  bounded_readings (column temperature frame_precise) /\
  bounded_readings (column humidity frame_precise) /\
  exists at_ ah : Q,
    average_temp (summarize frame_precise) = Finite at_ /\
    average_humidity (summarize frame_precise) = Finite ah /\
    Qabs (at_ - Qsum (column temperature frame_precise)
                / inject_Z (Z.of_nat (length frame_precise)))
      <= round_error + mean_error /\
    Qabs (ah - Qsum (column humidity frame_precise)
               / inject_Z (Z.of_nat (length frame_precise)))
      <= round_error + mean_error.
Proof.
  split; [discriminate |].
  split; [exact (proj1 frame_precise_bounded) |].
  split; [exact (proj2 frame_precise_bounded) |].
  apply (averages_rounding frame_precise);
    [discriminate | exact (proj1 frame_precise_bounded) | exact (proj2 frame_precise_bounded)].
Defined.

(** The rounded extremes of a series do not depend on the order of its
    elements. *)
Lemma Series_extremes_Permutation (l l' : list Q) :
  l ≡ₚ l' ->
  round (Series_max l) 2 = round (Series_max l') 2 /\
  round (Series_min l) 2 = round (Series_min l') 2.
Proof.
  intros Hp. destruct (decide (l = [])) as [-> | Hne].
  { apply Permutation_nil_l in Hp. subst l'. split; reflexivity. }
  assert (Hne' : l' <> []).
  { intros ->. apply Permutation_nil_r in Hp. contradiction. }
  destruct (Series_extremes l Hne) as (lo & hi & -> & -> & Hlo & Hhi & Hall).
  destruct (Series_extremes l' Hne') as (lo' & hi' & -> & -> & Hlo' & Hhi' & Hall').
  cbn [round]. rewrite Forall_forall in Hall, Hall'.
  rewrite <- Hp in Hlo', Hhi'. rewrite Hp in Hlo, Hhi.
  split; f_equal; apply np_round_2_Qeq; apply Qle_antisym.
  - apply (Hall' hi), Hhi.
  - apply (Hall hi'), Hhi'.
  - apply (Hall lo'), Hlo'.
  - apply (Hall' lo), Hlo.
Qed.

(** X9: the count, the rounded extremes and the counts per sensor do not
    depend on the order of the readings. *)
Theorem aggregates_permutation_invariant (df df' : DataFrame) :
  df ≡ₚ df' ->
  total_records (summarize df) = total_records (summarize df') /\
  max_temp (summarize df) = max_temp (summarize df') /\
  min_temp (summarize df) = min_temp (summarize df') /\
  records_per_sensor (summarize df) = records_per_sensor (summarize df').
Proof.
  intros Hp.
  cbn [summarize total_records max_temp min_temp records_per_sensor].
  assert (Ht : column temperature df ≡ₚ column temperature df')
    by (unfold column; apply Permutation_map, Hp).
  assert (Hi : column sensor_id df ≡ₚ column sensor_id df')
    by (unfold column; apply Permutation_map, Hp).
  destruct (Series_extremes_Permutation _ _ Ht) as (Emax & Emin).
  split; [apply Permutation_length, Hp |].
  split; [exact Emax |]. split; [exact Emin |].
  apply value_counts_Permutation, Hi.
Qed.

Lemma aggregates_permutation_invariant_witness :
  frame_halves ≡ₚ reverse frame_halves /\
  total_records (summarize frame_halves)
    = total_records (summarize (reverse frame_halves)) /\
  max_temp (summarize frame_halves) = max_temp (summarize (reverse frame_halves)) /\
  min_temp (summarize frame_halves) = min_temp (summarize (reverse frame_halves)) /\
  records_per_sensor (summarize frame_halves)
    = records_per_sensor (summarize (reverse frame_halves)).
Proof.
  split; [symmetry; apply reverse_Permutation |].
  apply (aggregates_permutation_invariant frame_halves (reverse frame_halves)).
  symmetry. apply reverse_Permutation.
Defined.

(** X12: when all the temperatures of a non-empty frame have one value, a
    million at most in magnitude, [min_temp] and [max_temp] are that value
    rounded.  The average need
    not be: six readings of 20.025 have the extremes 20.02 and the average
    20.03, their sum having been rounded. *)
Theorem constant_temperature :
  (forall (df : DataFrame) (x : Q),
     df <> [] -> Qabs x <= reading_bound ->
     Forall (fun row => temperature row == x) df ->
     min_temp (summarize df) = Finite (np_round x 2) /\
     max_temp (summarize df) = Finite (np_round x 2)) /\
  min_temp (summarize frame_six) = Finite (5635129033747333 # 281474976710656) /\
  max_temp (summarize frame_six) = Finite (5635129033747333 # 281474976710656) /\
  average_temp (summarize frame_six) = Finite (704742972939305 # 35184372088832).
Proof.
  split; [| repeat split; vm_compute; reflexivity].
  intros df x Hne _ Hall.
  destruct (Series_extremes (column temperature df)) as
    (lo & hi & Emin & Emax & Hlo & Hhi & _).
  { unfold column. destruct df; [congruence | discriminate]. }
  cbn [summarize min_temp max_temp]. rewrite Emin, Emax. cbn [round].
  assert (Hx : forall y, y ∈ column temperature df -> y == x).
  { intros y Hy. unfold column in Hy. apply list_elem_of_fmap in Hy as (row & -> & Hrow).
    rewrite Forall_forall in Hall. apply Hall, Hrow. }
  split; f_equal; apply np_round_2_Qeq; apply Hx; assumption.
Qed.

Lemma constant_temperature_witness :
  frame_six <> [] /\ Qabs (rnd64 (20025 # 1000)) <= reading_bound /\
  Forall (fun row => temperature row == rnd64 (20025 # 1000)) frame_six /\
  min_temp (summarize frame_six) = Finite (np_round (rnd64 (20025 # 1000)) 2) /\
  max_temp (summarize frame_six) = Finite (np_round (rnd64 (20025 # 1000)) 2).
Proof.
  assert (H : Forall (fun row => temperature row == rnd64 (20025 # 1000)) frame_six).
  { repeat (constructor; [reflexivity |]). constructor. }
  assert (Hx : Qabs (rnd64 (20025 # 1000)) <= reading_bound) by (vm_compute; discriminate).
  split; [discriminate |]. split; [exact Hx |]. split; [exact H |].
  apply (proj1 constant_temperature frame_six (rnd64 (20025 # 1000)));
    [discriminate | exact Hx | exact H].
Defined.

End SummarizerMore.

(** X10: [records_per_sensor] counts the sensor identifiers listed in
    [raw_data]: it has a key for each identifier that some entry carries
    and for no other, with the number of entries that carry it, which lies
    between 1 and [total_records]. *)
Theorem records_per_sensor_from_raw_data (df : DataFrame) :
  (forall id : string,
     records_per_sensor (summarize df) !! id =
       if decide (id ∈ map raw_sensor_id (raw_data (summarize df)))
       then Some (length (filter (fun raw => raw_sensor_id raw = id)
                                 (raw_data (summarize df))))
       else None) /\
  (forall (id : string) (c : nat),
     records_per_sensor (summarize df) !! id = Some c ->
     id ∈ map raw_sensor_id (raw_data (summarize df)) /\
     (1 <= c <= total_records (summarize df))%nat).
Proof.
  assert (Hcount : forall id : string,
            length (filter (fun x => x = id) (column sensor_id df)) =
            length (filter (fun raw => raw_sensor_id raw = id) (raw_data (summarize df)))).
  { intros id. rewrite raw_data_rows. unfold column.
    induction df as [| row df IH]; [reflexivity |]. cbn [map].
    destruct (decide (sensor_id row = id)) as [E | NE].
    - rewrite (filter_cons_True (fun x => x = id)) by exact E.
      rewrite (filter_cons_True (fun raw => raw_sensor_id raw = id)) by exact E.
      cbn [length]. congruence.
    - rewrite (filter_cons_False (fun x => x = id)) by exact NE.
      rewrite (filter_cons_False (fun raw => raw_sensor_id raw = id)) by exact NE.
      exact IH. }
  split.
  - intros id. rewrite raw_sensor_id_column.
    cbn [summarize records_per_sensor]. rewrite value_counts_lookup.
    fold (summarize df). rewrite (Hcount id). reflexivity.
  - intros id c. rewrite raw_sensor_id_column.
    cbn [summarize records_per_sensor total_records].
    rewrite value_counts_lookup.
    destruct (decide (id ∈ column sensor_id df)) as [Hin | Hnin]; [| discriminate].
    intros [= <-]. split; [exact Hin |]. split.
    + destruct (filter (fun x => x = id) (column sensor_id df)) as [| x f] eqn:F;
        [exfalso | simpl; lia].
      apply (filter_nil_not_elem_of _ _ id F); [reflexivity | exact Hin].
    + etransitivity; [apply length_filter |]. unfold column. rewrite length_map. reflexivity.
Qed.

(** X11: on a non-empty frame whose sensor identifiers are among the
    three, [records_per_sensor] has at least one key and at most three. *)
Theorem records_per_sensor_size (df : DataFrame) :
  df <> [] ->
  Forall (fun row => sensor_id row ∈ sensor_ids) df ->
  (1 <= size (records_per_sensor (summarize df)) <= 3)%nat.
Proof.
  intros Hne Hids. cbn [summarize records_per_sensor].
  apply value_counts_size.
  - unfold column. destruct df; [congruence | discriminate].
  - unfold column. apply Forall_fmap. exact Hids.
Qed.

Lemma records_per_sensor_size_witness :
  frame_fine <> [] /\
  Forall (fun row => sensor_id row ∈ sensor_ids) frame_fine /\
  (1 <= size (records_per_sensor (summarize frame_fine)) <= 3)%nat.
Proof.
  split; [discriminate |]. split; [exact frame_fine_sensor_ids |].
  apply (records_per_sensor_size frame_fine); [discriminate | exact frame_fine_sensor_ids].
Defined.

(* ===================================================================== *)
(** * Rendered timestamps and the handler *)

(** X13: two instants of the [datetime64[ns]] range are rendered alike
    exactly when they fall in the same second. *)
Theorem strftime_same_second (t1 t2 : Z) :
  in_bounds t1 -> in_bounds t2 ->
  (strftime "%Y-%m-%d %H:%M:%S" t1 = strftime "%Y-%m-%d %H:%M:%S" t2
   <-> t1 / ns_per_second = t2 / ns_per_second).
Proof.
  intros H1 H2. split.
  - apply strftime_second; assumption.
  - intros E. unfold strftime, to_datetime_struct.
    rewrite !days_of_seconds, E. reflexivity.
Qed.

Lemma strftime_same_second_witness :
  in_bounds now0 /\ in_bounds (now0 + 5) /\
  (strftime "%Y-%m-%d %H:%M:%S" now0 = strftime "%Y-%m-%d %H:%M:%S" (now0 + 5)
   <-> now0 / ns_per_second = (now0 + 5) / ns_per_second).
Proof.
  assert (B1 : in_bounds now0) by (unfold in_bounds; vm_compute; split; discriminate).
  assert (B2 : in_bounds (now0 + 5)) by (unfold in_bounds; vm_compute; split; discriminate).
  split; [exact B1 |]. split; [exact B2 |].
  apply (strftime_same_second now0 (now0 + 5) B1 B2).
Defined.

Lemma now0_hour_window : clock_window (now0 + ns_per_hour) 150.
Proof. unfold clock_window, in_bounds. vm_compute. repeat split; discriminate. Qed.

(** X14: when [randint] draws in its range and the clock leaves room for
    150 instants, the handler lists the 150 instants from 149 minutes
    before the clock up to the clock, one minute apart, each rendered to
    the second; no two entries of [raw_data] carry the same timestamp and
    the last one carries the clock's. *)
Theorem handler_timestamps {S : Type} `{RandomState S} (now : Z) (s : S) :
  randint_in_range -> clock_window now 150 ->
  exists r s',
    get_analytics_data now s = Ok (r, s') /\
    map raw_timestamp (raw_data r) =
      map (fun k => strftime "%Y-%m-%d %H:%M:%S" (now - (149 - k) * ns_per_minute))
          (seqZ 0 150) /\
    NoDup (map raw_timestamp (raw_data r)) /\
    last (map raw_timestamp (raw_data r)) = Some (strftime "%Y-%m-%d %H:%M:%S" now).
Proof.
  intros Hrange Hw.
  destruct (handler_frame now s Hrange Hw) as (df & s' & _ & E & _ & Hts & _).
  destruct Hw as ([B1 B2] & He & Ho).
  exists (summarize df), s'. split; [exact E |].
  assert (Hraw : map raw_timestamp (raw_data (summarize df)) =
            map (fun k => strftime "%Y-%m-%d %H:%M:%S" (now - (149 - k) * ns_per_minute))
                (seqZ 0 150)).
  { rewrite raw_data_rows, map_map.
    change (map (fun row => raw_timestamp (render row)) df)
      with (map (fun row => strftime "%Y-%m-%d %H:%M:%S" (timestamp row)) df).
    rewrite <- (map_map timestamp (strftime "%Y-%m-%d %H:%M:%S")).
    fold (column timestamp df). rewrite Hts. unfold minutes_before.
    rewrite map_map. reflexivity. }
  rewrite Hraw. split; [reflexivity |]. split.
  - apply (NoDup_fmap_2_strong
             (fun k => strftime "%Y-%m-%d %H:%M:%S" (now - (149 - k) * ns_per_minute)));
      [| apply NoDup_seqZ].
    intros j k Hj Hk Ejk. apply elem_of_seqZ in Hj, Hk.
    apply strftime_second in Ejk;
      [| unfold in_bounds, ns_per_minute, ns_per_second in *; lia
       | unfold in_bounds, ns_per_minute, ns_per_second in *; lia].
    unfold ns_per_minute, ns_per_second in Ejk. Z.div_mod_to_equations. lia.
  - change (seqZ 0 150) with (seqZ 0 149 ++ [149]).
    rewrite map_app. cbn [map]. rewrite last_snoc. do 2 f_equal. lia.
Qed.

Lemma handler_timestamps_witness :
  @randint_in_range Z lcg /\ clock_window now0 150 /\
  exists r s',
    get_analytics_data now0 42 = Ok (r, s') /\
    map raw_timestamp (raw_data r) =
      map (fun k => strftime "%Y-%m-%d %H:%M:%S" (now0 - (149 - k) * ns_per_minute))
          (seqZ 0 150) /\
    NoDup (map raw_timestamp (raw_data r)) /\
    last (map raw_timestamp (raw_data r)) = Some (strftime "%Y-%m-%d %H:%M:%S" now0).
Proof.
  split; [exact lcg_in_range |]. split; [exact now0_window |].
  apply (handler_timestamps now0 42 lcg_in_range now0_window).
Defined.

(** X15: when [randint] draws in its range and the clock leaves room for
    150 instants, the handler returns a result whose counts per sensor add
    up to 150, over at least one and at most three keys, all of them
    sensor identifiers of the fixed list. *)
Theorem handler_records {S : Type} `{RandomState S} (now : Z) (s : S) :
  randint_in_range -> clock_window now 150 ->
  exists r s',
    get_analytics_data now s = Ok (r, s') /\
    dict_sum (records_per_sensor r) = 150%nat /\
    (1 <= size (records_per_sensor r) <= 3)%nat /\
    (forall id : string, is_Some (records_per_sensor r !! id) -> id ∈ sensor_ids).
Proof.
  intros Hrange Hw.
  destruct (handler_frame now s Hrange Hw) as (df & s' & _ & E & Hlen & _ & _ & Hids).
  assert (Hne : df <> []) by (intros ->; discriminate Hlen).
  assert (Hcol : Forall (fun id => id ∈ sensor_ids) (column sensor_id df))
    by (unfold column; apply Forall_fmap; exact Hids).
  exists (summarize df), s'. split; [exact E |].
  cbn [summarize records_per_sensor].
  split; [| split].
  - rewrite dict_sum_value_counts. unfold column. rewrite length_map. exact Hlen.
  - apply value_counts_size; [| exact Hcol].
    unfold column. destruct df; [congruence | discriminate].
  - intros id [c Hc]. rewrite value_counts_lookup in Hc.
    destruct (decide (id ∈ column sensor_id df)) as [Hin | Hnin]; [| discriminate].
    rewrite Forall_forall in Hcol. apply Hcol, Hin.
Qed.

Lemma handler_records_witness :
  @randint_in_range Z lcg /\ clock_window now0 150 /\
  exists r s',
    get_analytics_data now0 42 = Ok (r, s') /\
    dict_sum (records_per_sensor r) = 150%nat /\
    (1 <= size (records_per_sensor r) <= 3)%nat /\
    (forall id : string, is_Some (records_per_sensor r !! id) -> id ∈ sensor_ids).
Proof.
  split; [exact lcg_in_range |]. split; [exact now0_window |].
  apply (handler_records now0 42 lcg_in_range now0_window).
Defined.

(** X16: from one generator state, two runs of the handler at two clock
    values that both return give the same count, aggregates, counts per
    sensor, listed temperatures, humidities and sensor identifiers, and
    the same final generator state: only the listed timestamps follow the
    clock. *)
Theorem handler_clock_independent {S : Type} `{RandomState S}
  (now1 now2 : Z) (s s1 s2 : S) (r1 r2 : AnalyticsResult) :
  get_analytics_data now1 s = Ok (r1, s1) ->
  get_analytics_data now2 s = Ok (r2, s2) ->
  s2 = s1 /\
  total_records r2 = total_records r1 /\
  average_temp r2 = average_temp r1 /\
  max_temp r2 = max_temp r1 /\
  min_temp r2 = min_temp r1 /\
  average_humidity r2 = average_humidity r1 /\
  records_per_sensor r2 = records_per_sensor r1 /\
  map raw_sensor_id (raw_data r2) = map raw_sensor_id (raw_data r1) /\
  map raw_temperature (raw_data r2) = map raw_temperature (raw_data r1) /\
  map raw_humidity (raw_data r2) = map raw_humidity (raw_data r1).
Proof.
  intros E1 E2.
  destruct (get_analytics_data_Ok now1 s s1 r1 E1) as (df1 & D1 & ->).
  destruct (get_analytics_data_Ok now2 s s2 r2 E2) as (df2 & D2 & ->).
  destruct (simulate_sensor_data_Ok 150 now1 s s1 df1 D1)
    as (_ & _ & _ & _ & L1 & _ & _ & Hx1 & Hh1 & Hs1 & Hi1).
  destruct (simulate_sensor_data_Ok 150 now2 s s2 df2 D2)
    as (_ & _ & _ & _ & L2 & _ & _ & Hx2 & Hh2 & Hs2 & Hi2).
  assert (Hi : column sensor_id df2 = column sensor_id df1) by congruence.
  assert (Hx : column temperature df2 = column temperature df1) by congruence.
  assert (Hh : column humidity df2 = column humidity df1) by congruence.
  rewrite !raw_sensor_id_column, !raw_temperature_column, !raw_humidity_column.
  cbn [summarize total_records average_temp max_temp min_temp average_humidity
       records_per_sensor].
  rewrite Hi, Hx, Hh, L1, L2. split; [congruence |]. repeat split.
Qed.

Lemma handler_clock_independent_witness :
  exists (r1 r2 : AnalyticsResult) (s1 s2 : Z),
    get_analytics_data now0 42 = Ok (r1, s1) /\
    get_analytics_data (now0 + ns_per_hour) 42 = Ok (r2, s2) /\
    s2 = s1 /\
    total_records r2 = total_records r1 /\
    average_temp r2 = average_temp r1 /\
    max_temp r2 = max_temp r1 /\
    min_temp r2 = min_temp r1 /\
    average_humidity r2 = average_humidity r1 /\
    records_per_sensor r2 = records_per_sensor r1 /\
    map raw_sensor_id (raw_data r2) = map raw_sensor_id (raw_data r1) /\
    map raw_temperature (raw_data r2) = map raw_temperature (raw_data r1) /\
    map raw_humidity (raw_data r2) = map raw_humidity (raw_data r1).
Proof.
  destruct (handler_frame now0 42 lcg_in_range now0_window)
    as (df1 & s1 & _ & E1 & _).
  destruct (handler_frame (now0 + ns_per_hour) 42 lcg_in_range now0_hour_window)
    as (df2 & s2 & _ & E2 & _).
  exists (summarize df1), (summarize df2), s1, s2.
  split; [exact E1 |]. split; [exact E2 |].
  apply (handler_clock_independent now0 (now0 + ns_per_hour) 42 s1 s2 _ _ E1 E2).
Defined.
